(** * Session-based authentication demo: the handlers of [app.js] and of
      the variant of the same server that has no roles.

    The two source files are two independently written variants of one
    Express application.  [app.js] has roles ([user_type]), the gates
    [isLoggedIn] / [isAdmin] and the admin routes; the other file has
    signup, login, logout and the members page only.  Both are embedded
    below, each in a module of its own, over one shared model of the
    collaborators they call: the [users] collection, the session store,
    the request-body validator and the password hasher. *)

From Stdlib Require Import Ascii String.
From stdpp Require Import gmap strings list fin_maps.

Set Default Proof Using "Type".
Local Open Scope string_scope.

(** ** Documents *)

(** A document of the [users] collection.  Documents are schemaless: the
    variant without roles inserts documents that have no [user_type]
    field, which reads back as [undefined] ([None]). *)
Record user := mkUser {
  name : string;
  email : string;
  password : string;
  user_type : option string
}.

(** The object the handlers assign to [req.session.user]. *)
Record identity := mkIdentity {
  sess_name : string;
  sess_email : string;
  sess_user_type : option string
}.

(** ** Requests *)

(** A field of [req.body] as [express.urlencoded({ extended: true })]
    leaves it: a string, or an array / nested object.  Used as a query
    filter on a string field, a nested object selects the strings that
    [selects] accepts (as [{ $ne: 'x' }] selects all but ['x']). *)
Inductive bodyval :=
| BStr (s : string)
| BNested (selects : string → bool).

Inductive method := GET | POST.

#[global] Instance method_eq_dec : EqDecision method.
Proof. solve_decision. Defined.

Record request := mkRequest {
  sid : string;                (* key of [req.session] in the session store *)
  body : gmap string bodyval;  (* [req.body] *)
  salt : string;               (* the salt [bcrypt.hash] draws for this request *)
  random : nat                 (* [Math.floor(Math.random() * 3)] of this request *)
}.

(** ** Responses *)

(** Error items of the validator, by the validator's error type. *)
Inductive joi_error :=
| any_required (key : string)
| string_base (key : string)
| string_empty (key : string)
| string_max (key : string) (limit : nat)
| string_min (key : string) (limit : nat)
| string_email (key : string)
| object_unknown (key : string).

(** Values handed to a view as locals. *)
Inductive value :=
| VNull
| VUndefined
| VStr (s : string)
| VStrs (l : list string)
| VIdentity (u : identity)
| VUsers (l : list user).

Inductive payload :=
| Text (s : string)
| Details (e : joi_error).   (* [error.details[0].message] *)

(** One call on [res] that writes the response. *)
Inductive call :=
| Send (status : nat) (b : payload)
| Render (status : nat) (view : string) (locals : list (string * value))
| Redirect (url : string).

(** [req.session.user] as a local: the identity, or [undefined]. *)
Definition of_session (o : option identity) : value :=
  match o with
  | Some u => VIdentity u
  | None => VUndefined
  end.

(** ** State and the handler monad *)

(** What a handler can read and write: the [users] collection in
    insertion order, the session store keyed by session id, and the
    calls made on [res] so far, in the order the handler makes them (a
    handler is meant to make one). *)
Record st := mkSt {
  users : list user;
  sessions : gmap string identity;
  sent : list call
}.

Inductive exn :=
| TypeError (msg : string).

Inductive res (A : Type) :=
| Val (a : A)
| Throw (e : exn).
Arguments Val {A} a.
Arguments Throw {A} e.

Definition M (A : Type) : Type := st → res A * st.

#[global] Instance M_ret : MRet M := λ A a s, (Val a, s).
#[global] Instance M_bind : MBind M := λ A B f m s,
  match m s with
  | (Val a, s') => f a s'
  | (Throw e, s') => (Throw e, s')
  end.

Definition throw {A} (e : exn) : M A := λ s, (Throw e, s).

(** *** The [users] collection *)

Definition has_email (e : string) (u : user) : bool :=
  bool_decide (email u = e).

(** [users.findOne({ email: e })]: the first match, or [null]. *)
Definition findOne (e : string) : M (option user) :=
  λ s, (Val (List.find (has_email e) (users s)), s).

(** [users.insertOne(u)] *)
Definition insertOne (u : user) : M unit :=
  λ s, (Val tt, mkSt (users s ++ [u]) (sessions s) (sent s)).

(** [users.find().toArray()] *)
Definition find_toArray : M (list user) :=
  λ s, (Val (users s), s).

Definition set_user_type (r : string) (u : user) : user :=
  mkUser (name u) (email u) (password u) (Some r).

(** The filter [{ email: q }] with [q] taken from the body as it is: a
    string selects by equality; a missing field is sent as [null] and
    selects no document that has an email. *)
Definition email_filter (q : option bodyval) (u : user) : bool :=
  match q with
  | Some (BStr e) => has_email e u
  | Some (BNested selects) => selects (email u)
  | None => false
  end.

Fixpoint update_first (p : user → bool) (f : user → user) (l : list user) : list user :=
  match l with
  | [] => []
  | u :: l' => if p u then f u :: l' else u :: update_first p f l'
  end.

(** [users.updateOne({ email: q }, { $set: { user_type: r } })]: the first
    match is updated, and no match is not an error. *)
Definition updateOne (q : option bodyval) (r : string) : M unit :=
  λ s, (Val tt, mkSt (update_first (email_filter q) (set_user_type r) (users s))
                     (sessions s) (sent s)).

(** *** The session of the request *)

(** [req.session.user] *)
Definition session_user (req : request) : M (option identity) :=
  λ s, (Val (sessions s !! sid req), s).

(** [req.session.user = u].  The session middleware keeps [req.session]
    in the store under the session id of the request; the assignment is
    modelled as the write to that entry. *)
Definition set_session_user (req : request) (u : identity) : M unit :=
  λ s, (Val tt, mkSt (users s) (<[sid req := u]> (sessions s)) (sent s)).

(** [req.session.destroy(cb)]: the entry is removed; the value is the
    error handed to [cb], and removing from the store reports none. *)
Definition session_destroy (req : request) : M (option string) :=
  λ s, (Val None, mkSt (users s) (delete (sid req) (sessions s)) (sent s)).

(** *** Writing the response *)

Definition respond (c : call) : M unit :=
  λ s, (Val tt, mkSt (users s) (sessions s) (sent s ++ [c])).

Definition send (status : nat) (b : payload) : M unit := respond (Send status b).
Definition render (status : nat) (view : string) (locals : list (string * value)) : M unit :=
  respond (Render status view locals).
Definition redirect (url : string) : M unit := respond (Redirect url).

(** Reading a property of [o]: a [TypeError] when [o] is [null]. *)
Definition deref {A} (o : option A) : M A :=
  match o with
  | Some a => mret a
  | None => throw (TypeError "Cannot read properties of null")
  end.

(** A handler started on a store, with nothing written on [res] yet. *)
Definition run {A} (h : M A) (us : list user) (ss : gmap string identity) : res A * st :=
  h (mkSt us ss []).

(** ** The validator *)

(** Strings are sequences of code units, and [String.length] is their
    [.length]. *)
Inductive rule :=
| Max (limit : nat)
| Min (limit : nat)
| Email.

(** The collaborators the handlers call but do not define: the
    validator's test for [string().email()], and the hasher. *)
Class Library := {
  isEmail : string → bool;
  bcrypt_hash : string → string → string;   (* salt, plaintext *)
  bcrypt_compare : string → string → bool   (* plaintext, hash *)
}.

Section validator.
Context `{Library}.

Definition check_rule (key : string) (r : rule) (s : string) : option joi_error :=
  match r with
  | Max n => if decide (String.length s ≤ n)%nat then None else Some (string_max key n)
  | Min n => if decide (n ≤ String.length s)%nat then None else Some (string_min key n)
  | Email => if isEmail s then None else Some (string_email key)
  end.

Fixpoint check_rules (key : string) (rs : list rule) (s : string) : option joi_error :=
  match rs with
  | [] => None
  | r :: rs' =>
      match check_rule key r s with
      | Some e => Some e
      | None => check_rules key rs' s
      end
  end.

(** [Joi.string().<rules>.required()] on the field [key]: a string, not
    empty, that passes the rules in the order they are written. *)
Definition validate_string (key : string) (rs : list rule) (v : option bodyval)
  : joi_error + string :=
  match v with
  | None => inl (any_required key)
  | Some (BNested _) => inl (string_base key)
  | Some (BStr s) =>
      if decide (s = "") then inl (string_empty key)
      else match check_rules key rs s with
           | Some e => inl e
           | None => inr s
           end
  end.

Fixpoint validate_keys (schema : list (string * list rule)) (b : gmap string bodyval)
  : joi_error + gmap string string :=
  match schema with
  | [] => inr ∅
  | (key, rs) :: schema' =>
      match validate_string key rs (b !! key) with
      | inl e => inl e
      | inr s =>
          match validate_keys schema' b with
          | inl e => inl e
          | inr v => inr (<[key := s]> v)
          end
      end
  end.

Definition unknown_keys (schema : list (string * list rule)) (b : gmap string bodyval)
  : list string :=
  filter (λ k, k ∉ schema.*1) (map_to_list b).*1.

(** [Joi.object(schema).validate(b)]: the keys of the schema in order,
    the first error only, then the keys the schema does not have. *)
Definition validate (schema : list (string * list rule)) (b : gmap string bodyval)
  : joi_error + gmap string string :=
  match validate_keys schema b with
  | inl e => inl e
  | inr v =>
      match unknown_keys schema b with
      | [] => inr v
      | k :: _ => inl (object_unknown k)
      end
  end.

End validator.

(** ** [app.js] *)

Module App.
Section handlers.
Context `{Library}.

Definition middleware : Type := request → M unit → M unit.

Definition isLoggedIn : middleware := λ req next,
  u ← session_user req;
  if u is Some _ then next else redirect "/login".

Definition isAdmin : middleware := λ req next,
  u ← session_user req;
  if (if u is Some i then bool_decide (sess_user_type i = Some "admin") else false)
  then next
  else render 403 "403" [("user", of_session u)].

Definition home (req : request) : M unit :=
  u ← session_user req;
  match u with
  | Some i =>
      render 200 "home"
        [("user", VIdentity i);
         ("message", VStr ("Welcome, " +:+ sess_name i +:+ "!"));
         ("membersLink", VStr "/members");
         ("logoutLink", VStr "/logout")]
  | None =>
      render 200 "home"
        [("user", VNull);
         ("message", VStr "Please sign up or log in to continue.");
         ("signupLink", VStr "/signup");
         ("loginLink", VStr "/login")]
  end.

Definition signup (req : request) : M unit :=
  render 200 "signup" [("user", VNull)].

Definition signup_schema : list (string * list rule) :=
  [("name", [Max 255]); ("email", [Email]); ("password", [Min 6])].

Definition signupPost (req : request) : M unit :=
  match validate signup_schema (body req) with
  | inl error => send 400 (Details error)
  | inr value =>
      existingUser ← findOne (value !!! "email");
      if existingUser is Some _ then send 400 (Text "Email already exists")
      else
        let hashedPassword := bcrypt_hash (salt req) (value !!! "password") in
        let newUser :=
          mkUser (value !!! "name") (value !!! "email") hashedPassword (Some "user") in
        insertOne newUser;;
        set_session_user req (mkIdentity (name newUser) (email newUser) (user_type newUser));;
        redirect "/members"
  end.

Definition login (req : request) : M unit :=
  render 200 "login" [("message", VNull); ("user", VNull)].

Definition login_schema : list (string * list rule) :=
  [("email", [Email]); ("password", [])].

(** The [if] that renders the failure view has no [return]: the handler
    goes on to read [user.name] and to assign the session. *)
Definition loginPost (req : request) : M unit :=
  match validate login_schema (body req) with
  | inl error => send 400 (Details error)
  | inr value =>
      user ← findOne (value !!! "email");
      (if (if user is Some u
           then negb (bcrypt_compare (value !!! "password") (password u))
           else true)
       then render 200 "login"
              [("message", VStr "Invalid email/password combination"); ("user", VNull)]
       else mret tt);;
      u ← deref user;
      set_session_user req (mkIdentity (name u) (email u) (user_type u));;
      redirect "/"
  end.

Definition logout (req : request) : M unit :=
  _ ← session_destroy req;
  redirect "/".

Definition members (req : request) : M unit :=
  u ← session_user req;
  if u is Some _
  then render 200 "members"
         [("user", of_session u); ("images", VStrs ["cat1.jpg"; "cat2.jpg"; "cat3.jpg"])]
  else redirect "/".

Definition admin (req : request) : M unit :=
  us ← find_toArray;
  u ← session_user req;
  render 200 "admin" [("user", of_session u); ("users", VUsers us)].

Definition promote (req : request) : M unit :=
  updateOne (body req !! "email") "admin";;
  redirect "/admin".

Definition demote (req : request) : M unit :=
  updateOne (body req !! "email") "user";;
  redirect "/admin".

Definition error404 (req : request) : M unit :=
  u ← session_user req;
  render 404 "404" [("user", of_session u)].

(** The gates of a route run in order; each hands over by calling [next]. *)
Definition chain (gates : list middleware) (req : request) (h : M unit) : M unit :=
  foldr (λ g next, g req next) h gates.

(** The route table of [run], first match first. *)
Definition routes : list (method * string * (list middleware * (request → M unit))) :=
  [ (GET, "/", ([], home));
    (GET, "/signup", ([], signup));
    (POST, "/signup", ([], signupPost));
    (GET, "/login", ([], login));
    (POST, "/login", ([], loginPost));
    (GET, "/logout", ([], logout));
    (GET, "/members", ([isLoggedIn], members));
    (GET, "/admin", ([isLoggedIn; isAdmin], admin));
    (POST, "/promote", ([isLoggedIn; isAdmin], promote));
    (POST, "/demote", ([isLoggedIn; isAdmin], demote)) ].

Definition dispatch (m : method) (path : string) (req : request) : M unit :=
  match List.find (λ r, bool_decide (r.1 = (m, path))) routes with
  | Some (_, (gates, h)) => chain gates req (h req)
  | None => error404 req
  end.

End handlers.
End App.

(** ** The variant without roles *)

Module Part000.
Section handlers.
Context `{Library}.

Definition middleware : Type := request → M unit → M unit.

(** Defined by the file, and on no route of its [run]. *)
Definition isLoggedIn : middleware := λ req next,
  u ← session_user req;
  if u is Some _ then next else redirect "/".

Definition home (req : request) : M unit :=
  u ← session_user req;
  match u with
  | Some i =>
      render 200 "home"
        [("user", VIdentity i);
         ("message", VStr ("Welcome, " +:+ sess_name i +:+ "!"));
         ("membersLink", VStr "/members");
         ("logoutLink", VStr "/logout")]
  | None =>
      render 200 "home"
        [("user", VNull);
         ("message", VStr "Please sign up or log in to continue.");
         ("signupLink", VStr "/signup");
         ("loginLink", VStr "/login")]
  end.

Definition homePost (req : request) : M unit :=
  send 200 (Text "Received your POST request!").

Definition signup (req : request) : M unit :=
  render 200 "signup" [].

Definition signup_schema : list (string * list rule) :=
  [("name", [Max 255]); ("email", [Email; Max 255]); ("password", [Min 6; Max 255])].

(** The body after validation is inside [try]; no operation of the model
    throws there, so the [catch] branch (status 500) has no counterpart. *)
Definition signupPost (req : request) : M unit :=
  match validate signup_schema (body req) with
  | inl error => send 400 (Details error)
  | inr value =>
      existingUser ← findOne (value !!! "email");
      if existingUser is Some _ then send 400 (Text "Email already exists")
      else
        let hashedPassword := bcrypt_hash (salt req) (value !!! "password") in
        let newUser := mkUser (value !!! "name") (value !!! "email") hashedPassword None in
        insertOne newUser;;
        set_session_user req (mkIdentity (value !!! "name") (value !!! "email") None);;
        redirect "/members"
  end.

Definition login (req : request) : M unit :=
  render 200 "login" [("message", VNull)].

Definition login_schema : list (string * list rule) :=
  [("email", [Email]); ("password", [])].

Definition loginPost (req : request) : M unit :=
  match validate login_schema (body req) with
  | inl error => send 400 (Details error)
  | inr value =>
      user ← findOne (value !!! "email");
      match user with
      | None =>
          render 200 "login" [("message", VStr "Invalid email/password combination")]
      | Some u =>
          let passwordMatch := bcrypt_compare (value !!! "password") (password u) in
          if passwordMatch
          then set_session_user req (mkIdentity (name u) (email u) None);;
               redirect "/"
          else render 200 "login" [("message", VStr "Invalid email/password combination")]
      end
  end.

(** [err] is logged when there is one; the redirect follows either way. *)
Definition logout (req : request) : M unit :=
  err ← session_destroy req;
  (if err is Some _ then mret tt else mret tt);;
  redirect "/".

Definition images : list string := ["cat1.jpg"; "cat2.jpg"; "cat3.jpg"].

Definition members (req : request) : M unit :=
  u ← session_user req;
  if u is Some _
  then
    let randomImage := images !! (random req `mod` length images)%nat in
    render 200 "members"
      [("user", of_session u); ("randomImage", from_option VStr VUndefined randomImage)]
  else redirect "/".

Definition error404 (req : request) : M unit :=
  send 404 (Text "Page not found - 404").

(** The route table of [run], first match first; no route has a gate. *)
Definition routes : list (method * string * (request → M unit)) :=
  [ (GET, "/", home);
    (POST, "/", homePost);
    (GET, "/signup", signup);
    (POST, "/signup", signupPost);
    (GET, "/login", login);
    (POST, "/login", loginPost);
    (GET, "/logout", logout);
    (GET, "/members", members) ].

Definition dispatch (m : method) (path : string) (req : request) : M unit :=
  match List.find (λ r, bool_decide (r.1 = (m, path))) routes with
  | Some (_, h) => h req
  | None => error404 req
  end.

End handlers.
End Part000.

(** ** A concrete library, for evaluating the handlers *)

(** A stand-in validator test and hasher with the shape of the real
    ones: an address has an [@] and at most 254 characters; a hash is the
    salt and the plaintext behind a marker, and never its plaintext. *)
Fixpoint has_at (s : string) : bool :=
  match s with
  | EmptyString => false
  | String c s' => if decide (c = "@"%char) then true else has_at s'
  end.

Definition toy_isEmail (s : string) : bool :=
  has_at s && bool_decide (String.length s ≤ 254)%nat.

Definition toy_hash (salt p : string) : string := "$2b$10$" +:+ salt +:+ "$" +:+ p.

Fixpoint is_suffix (p h : string) : bool :=
  if decide (h = p) then true
  else match h with
       | EmptyString => false
       | String _ h' => is_suffix p h'
       end.

Definition toy_compare (p h : string) : bool :=
  is_suffix ("$" +:+ p) h.

Definition toy : Library :=
  {| isEmail := toy_isEmail; bcrypt_hash := toy_hash; bcrypt_compare := toy_compare |}.

(** ** Sample data *)

Definition form (session_id : string) (fields : list (string * string)) : request :=
  mkRequest session_id (list_to_map (prod_map id BStr <$> fields)) "salt" 0.

Definition alice : user :=
  mkUser "Alice" "alice@x.com" (toy_hash "s" "secret1") (Some "user").

Definition root : identity := mkIdentity "Root" "root@x.com" (Some "admin").

Definition register_bob : request :=
  form "sid-bob" [("name", "Bob"); ("email", "bob@x.com"); ("password", "secret2")].

Definition register_alice_again : request :=
  form "sid-eve" [("name", "Eve"); ("email", "alice@x.com"); ("password", "secret3")].

Definition register_short_password : request :=
  form "sid-bob" [("name", "Bob"); ("email", "bob@x.com"); ("password", "abc")].

Definition login_alice : request :=
  form "sid-1" [("email", "alice@x.com"); ("password", "secret1")].

Definition login_alice_wrong : request :=
  form "sid-1" [("email", "alice@x.com"); ("password", "wrong")].

Definition admin_session : gmap string identity := {["sid-root" := root]}.

Definition promote_alice : request := form "sid-root" [("email", "alice@x.com")].

Definition promote_nobody : request := form "sid-root" [("email", "nobody@x.com")].

Definition admin_page : request := form "sid-root" [].

Definition login_nobody : request :=
  form "sid-1" [("email", "nobody@x.com"); ("password", "wrong")].

(** ** Vocabulary of the statements *)

(** The identity that matches a document: its name, email and role. *)
Definition identity_of (u : user) : identity :=
  mkIdentity (name u) (email u) (user_type u).

(** The bound on names and emails, and the least length of a password. *)
Definition length_bound : nat := 255.
Definition password_min : nat := 6.

Section vocabulary.
Context `{Library}.

(** Inputs of a registration that break a constraint: name empty or over
    the bound, email not well-formed or over the bound, password too
    short. *)
Definition violates_constraints (n e p : string) : Prop :=
  n = "" ∨ (length_bound < String.length n)%nat ∨
  isEmail e = false ∨ (length_bound < String.length e)%nat ∨
  (String.length p < password_min)%nat.

(** The validator's address test refuses an address of more than 254
    characters (its length check is on unless [ignoreLength] is set,
    which neither file does). *)
Definition email_length_checked : Prop :=
  ∀ a, isEmail a = true → (String.length a ≤ 254)%nat.

(** The hasher never hands back its plaintext. *)
Definition hash_never_plaintext : Prop :=
  ∀ s p, bcrypt_hash s p ≠ p.

End vocabulary.

(** The answer of [authorize]. *)
Inductive decision := allow | deny.

(** [authorize] in the words of the specification: allow when there is a
    session and the required role is unset or is the role of the
    session. *)
Definition authorize (session : option identity) (requiredRole : option string) : decision :=
  match session with
  | None => deny
  | Some u =>
      match requiredRole with
      | None => allow
      | Some r => if decide (sess_user_type u = Some r) then allow else deny
      end
  end.

(** What the gates of a route decide on a request: allow when they reach
    the handler without having written a response. *)
Definition gate_decision (gates : list App.middleware) (req : request)
    (us : list user) (ss : gmap string identity) : decision :=
  match run (App.chain gates req (mret tt)) us ss with
  | (Val _, s) => if sent s is [] then allow else deny
  | (Throw _, _) => deny
  end.

(** Requests served one after the other by [app.js]. *)
Fixpoint serve `{Library} (reqs : list (method * string * request))
    (us : list user) (ss : gmap string identity) : list user * gmap string identity :=
  match reqs with
  | [] => (us, ss)
  | (m, path, req) :: reqs' =>
      let s := (run (App.dispatch m path req) us ss).2 in
      serve reqs' (users s) (sessions s)
  end.

(** A computation that writes to no session but the one under [k]. *)
Definition touches_only {A} (k : string) (m : M A) : Prop :=
  ∀ s k', k' ≠ k → sessions (m s).2 !! k' = sessions s !! k'.

(** A response that reports an error: status 400 and above. *)
Definition is_error (c : call) : bool :=
  match c with
  | Send status _ | Render status _ _ => bool_decide (400 ≤ status)%nat
  | Redirect _ => false
  end.

(** The failure view of login, as each file renders it. *)
Definition invalid_credentials_app : call :=
  Render 200 "login" [("message", VStr "Invalid email/password combination"); ("user", VNull)].

Definition invalid_credentials_part000 : call :=
  Render 200 "login" [("message", VStr "Invalid email/password combination")].

(** A handler run that ended in the success redirect of signup. *)
Definition registered (out : res unit * st) : Prop :=
  out.1 = Val tt ∧ sent out.2 = [Redirect "/members"].

(** ** Vocabulary of the properties of whole request sequences *)

(** Requests served one after the other by the file without roles. *)
Fixpoint Part000_serve `{Library} (reqs : list (method * string * request))
    (us : list user) (ss : gmap string identity) : list user * gmap string identity :=
  match reqs with
  | [] => (us, ss)
  | (m, path, req) :: reqs' =>
      let s := (run (Part000.dispatch m path req) us ss).2 in
      Part000_serve reqs' (users s) (sessions s)
  end.

(** What one request to [app.js] can do to the two stores. *)
Inductive effect (req : request) (us : list user) (ss : gmap string identity)
  : list user → gmap string identity → Prop :=
| effect_none :
    effect req us ss us ss
| effect_signup u :
    email u ∉ email <$> us → user_type u = Some "user" →
    effect req us ss (us ++ [u]) (<[sid req := identity_of u]> ss)
| effect_login u :
    u ∈ us →
    effect req us ss us (<[sid req := identity_of u]> ss)
| effect_logout :
    effect req us ss us (delete (sid req) ss)
| effect_role actor q r :
    ss !! sid req = Some actor → sess_user_type actor = Some "admin" →
    r = "admin" ∨ r = "user" →
    effect req us ss (update_first (email_filter q) (set_user_type r) us) ss.

(** What one request to the file without roles can do to them. *)
Inductive Part000_effect (req : request) (us : list user) (ss : gmap string identity)
  : list user → gmap string identity → Prop :=
| Part000_effect_none :
    Part000_effect req us ss us ss
| Part000_effect_signup u :
    email u ∉ email <$> us → user_type u = None →
    Part000_effect req us ss (us ++ [u]) (<[sid req := identity_of u]> ss)
| Part000_effect_login u :
    u ∈ us →
    Part000_effect req us ss us (<[sid req := mkIdentity (name u) (email u) None]> ss)
| Part000_effect_logout :
    Part000_effect req us ss us (delete (sid req) ss).

(** A document without its role. *)
Definition without_role (u : user) : string * string * string :=
  (name u, email u, password u).

(** No document and no session has the role [admin]. *)
Definition no_admin (us : list user) (ss : gmap string identity) : Prop :=
  Forall (λ u, user_type u ≠ Some "admin") us ∧
  map_Forall (λ _ i, sess_user_type i ≠ Some "admin") ss.

(** The hasher's [compare] accepts what its [hash] made. *)
Definition hash_verifies `{Library} : Prop :=
  ∀ s p, bcrypt_compare p (bcrypt_hash s p) = true.

(** A body that passes the login schema: an email the validator accepts
    and a password that is not empty, both strings. *)
Definition login_fields `{Library} (b : gmap string bodyval) : Prop :=
  ∃ e p, b !! "email" = Some (BStr e) ∧ b !! "password" = Some (BStr p) ∧
         isEmail e = true ∧ p ≠ "".

(** More sample data. *)
Definition bob_session : identity := mkIdentity "Bob" "bob@x.com" (Some "user").

Definition alice_admin_session : identity := mkIdentity "Alice" "alice@x.com" (Some "admin").

Definition login_bob : request :=
  form "sid-9" [("email", "bob@x.com"); ("password", "secret2")].

Definition login_no_password : request := form "sid-1" [("email", "alice@x.com")].

Definition demote_alice : request := form "sid-root" [("email", "alice@x.com")].

Definition as_alice : request := form "sid-alice" [].

Definition user_session : gmap string identity := {["sid-root" := bob_session]}.

Definition two_admin_sessions : gmap string identity :=
  {["sid-root" := root; "sid-alice" := alice_admin_session]}.

Definition three_requests : list (method * string * request) :=
  [(POST, "/signup", register_bob); (POST, "/promote", promote_alice);
   (POST, "/login", login_alice)].

Definition as_bob : request := form "sid-bob" [].

(** * Properties *)

(** ** The validator *)

Section validator_facts.
Context `{Library}.

Lemma check_rules_None key rs s r :
  check_rules key rs s = None → r ∈ rs → check_rule key r s = None.
Proof.
  induction rs as [|r' rs IH]; intros Hc Hin.
  - by apply elem_of_nil in Hin.
  - simpl in Hc. destruct (check_rule key r' s) eqn:Hr'; [done|].
    apply elem_of_cons in Hin as [->|Hin]; auto.
Qed.

Lemma validate_string_inr key rs o s :
  validate_string key rs o = inr s →
  o = Some (BStr s) ∧ s ≠ "" ∧ check_rules key rs s = None.
Proof.
  unfold validate_string. destruct o as [[s'|?]|]; try done.
  case_decide; [done|]. destruct (check_rules key rs s') eqn:Hc; [done|].
  by intros [= <-].
Qed.

(** A body that passes has, under every key of the schema, a string that
    is not empty and passes the rules of the key; the validated value has
    that string under the key. *)
Lemma validate_keys_inr schema b v key rs :
  validate_keys schema b = inr v → NoDup schema.*1 → (key, rs) ∈ schema →
  ∃ s, b !! key = Some (BStr s) ∧ s ≠ "" ∧ check_rules key rs s = None ∧
       v !! key = Some s.
Proof.
  revert v. induction schema as [|[k0 rs0] schema IH]; intros v Hv Hnd Hin.
  - by apply elem_of_nil in Hin.
  - simpl in Hv.
    destruct (validate_string k0 rs0 (b !! k0)) as [|s0] eqn:Hs0; [done|].
    destruct (validate_keys schema b) as [|v'] eqn:Hv'; [done|].
    injection Hv as <-. apply validate_string_inr in Hs0 as (Hb & Hne & Hc).
    apply NoDup_cons in Hnd as [Hk0 Hnd].
    apply elem_of_cons in Hin as [[= -> ->]|Hin].
    + exists s0. by rewrite lookup_insert_eq.
    + destruct (IH v' eq_refl Hnd Hin) as (s & ? & ? & ? & ?).
      exists s. split_and!; try done.
      rewrite lookup_insert_ne; [done|].
      intros ->. apply Hk0. apply list_elem_of_fmap. by exists (key, rs).
Qed.

Lemma validate_inr schema b v :
  validate schema b = inr v →
  validate_keys schema b = inr v ∧ unknown_keys schema b = [].
Proof.
  unfold validate. destruct (validate_keys schema b); [done|].
  destruct (unknown_keys schema b); [|done]. by intros [= <-].
Qed.

Lemma validate_field schema b v key rs :
  validate schema b = inr v → NoDup schema.*1 → (key, rs) ∈ schema →
  ∃ s, b !! key = Some (BStr s) ∧ s ≠ "" ∧ check_rules key rs s = None ∧
       v !!! key = s.
Proof.
  intros [Hv _]%validate_inr Hnd Hin.
  destruct (validate_keys_inr _ _ _ _ _ Hv Hnd Hin) as (s & ? & ? & ? & Hl).
  exists s. split_and!; try done. by rewrite lookup_total_alt, Hl.
Qed.

End validator_facts.

Section schemas.
Context `{Library}.

Lemma check_max key n s : check_rule key (Max n) s = None → (String.length s ≤ n)%nat.
Proof. simpl. by case_decide. Qed.

Lemma check_min key n s : check_rule key (Min n) s = None → (n ≤ String.length s)%nat.
Proof. simpl. by case_decide. Qed.

Lemma check_email key s : check_rule key Email s = None → isEmail s = true.
Proof. simpl. by destruct (isEmail s). Qed.

Lemma schema_keys_NoDup (schema : list (string * list rule)) :
  bool_decide (NoDup schema.*1) = true → NoDup schema.*1.
Proof. apply bool_decide_eq_true_1. Qed.

(** What [value] holds once the signup schema of [app.js] has passed. *)
Lemma App_signup_valid b v :
  validate App.signup_schema b = inr v →
  ∃ n e p,
    b !! "name" = Some (BStr n) ∧ b !! "email" = Some (BStr e) ∧
    b !! "password" = Some (BStr p) ∧
    n ≠ "" ∧ (String.length n ≤ 255)%nat ∧ isEmail e = true ∧
    (6 ≤ String.length p)%nat ∧
    v !!! "name" = n ∧ v !!! "email" = e ∧ v !!! "password" = p.
Proof.
  intros Hv.
  assert (NoDup App.signup_schema.*1) as Hnd by by apply schema_keys_NoDup.
  destruct (validate_field _ _ _ "name" [Max 255] Hv Hnd) as (n & ? & ? & Hn & ?);
    [unfold App.signup_schema; set_solver|].
  destruct (validate_field _ _ _ "email" [Email] Hv Hnd) as (e & ? & ? & He & ?);
    [unfold App.signup_schema; set_solver|].
  destruct (validate_field _ _ _ "password" [Min 6] Hv Hnd) as (p & ? & ? & Hp & ?);
    [unfold App.signup_schema; set_solver|].
  exists n, e, p. split_and!; try done.
  - eapply check_max, check_rules_None; [done|set_solver].
  - eapply check_email, check_rules_None; [done|set_solver].
  - eapply check_min, check_rules_None; [done|set_solver].
Qed.

(** The same for the variant without roles, whose schema also bounds the
    email and the password from above. *)
Lemma Part000_signup_valid b v :
  validate Part000.signup_schema b = inr v →
  ∃ n e p,
    b !! "name" = Some (BStr n) ∧ b !! "email" = Some (BStr e) ∧
    b !! "password" = Some (BStr p) ∧
    n ≠ "" ∧ (String.length n ≤ 255)%nat ∧
    isEmail e = true ∧ (String.length e ≤ 255)%nat ∧
    (6 ≤ String.length p ≤ 255)%nat ∧
    v !!! "name" = n ∧ v !!! "email" = e ∧ v !!! "password" = p.
Proof.
  intros Hv.
  assert (NoDup Part000.signup_schema.*1) as Hnd by by apply schema_keys_NoDup.
  destruct (validate_field _ _ _ "name" [Max 255] Hv Hnd) as (n & ? & ? & Hn & ?);
    [unfold Part000.signup_schema; set_solver|].
  destruct (validate_field _ _ _ "email" [Email; Max 255] Hv Hnd) as (e & ? & ? & He & ?);
    [unfold Part000.signup_schema; set_solver|].
  destruct (validate_field _ _ _ "password" [Min 6; Max 255] Hv Hnd) as (p & ? & ? & Hp & ?);
    [unfold Part000.signup_schema; set_solver|].
  exists n, e, p. split_and!; try done.
  - eapply check_max, check_rules_None; [done|set_solver].
  - eapply check_email, check_rules_None; [done|set_solver].
  - eapply check_max, check_rules_None; [done|set_solver].
  - eapply check_min, check_rules_None; [done|set_solver].
  - eapply check_max, check_rules_None; [done|set_solver].
Qed.

(** The login schema is the same in both files. *)
Lemma login_valid b v :
  validate App.login_schema b = inr v →
  ∃ e p,
    b !! "email" = Some (BStr e) ∧ b !! "password" = Some (BStr p) ∧
    isEmail e = true ∧ p ≠ "" ∧
    v !!! "email" = e ∧ v !!! "password" = p.
Proof.
  intros Hv.
  assert (NoDup App.login_schema.*1) as Hnd by by apply schema_keys_NoDup.
  destruct (validate_field _ _ _ "email" [Email] Hv Hnd) as (e & ? & ? & He & ?);
    [unfold App.login_schema; set_solver|].
  destruct (validate_field _ _ _ "password" [] Hv Hnd) as (p & ? & ? & Hp & ?);
    [unfold App.login_schema; set_solver|].
  exists e, p. split_and!; try done.
  eapply check_email, check_rules_None; [done|set_solver].
Qed.

Lemma login_schema_same : Part000.login_schema = App.login_schema.
Proof. reflexivity. Qed.

End schemas.

(** ** The [users] collection *)

Lemma has_email_true e u : has_email e u = true ↔ email u = e.
Proof. unfold has_email. by rewrite bool_decide_eq_true. Qed.

Lemma find_email_Some e us u :
  List.find (has_email e) us = Some u → u ∈ us ∧ email u = e.
Proof.
  intros Hf. apply find_some in Hf as [Hin He].
  split; [by apply list_elem_of_In | by apply has_email_true].
Qed.

Lemma find_email_None e us :
  List.find (has_email e) us = None ↔ e ∉ email <$> us.
Proof.
  induction us as [|u us IH]; simpl.
  - split; [intros _; apply not_elem_of_nil | done].
  - destruct (has_email e u) eqn:Hu.
    + apply has_email_true in Hu. split; [done|].
      intros Hn. exfalso. apply Hn. rewrite <- Hu. apply list_elem_of_here.
    + assert (email u ≠ e) by (intros ?%has_email_true; congruence).
      rewrite IH. split; intros Hn.
      * apply not_elem_of_cons. split; [congruence | done].
      * by apply not_elem_of_cons in Hn as [_ ?].
Qed.

Lemma find_email_is_Some e us u :
  u ∈ us → email u = e → is_Some (List.find (has_email e) us).
Proof.
  intros Hin He. destruct (List.find (has_email e) us) eqn:Hf; [by eexists|].
  apply find_email_None in Hf. exfalso. apply Hf.
  apply list_elem_of_fmap. by exists u.
Qed.

(** Emails stay pairwise distinct when a document with a new email is
    appended. *)
Lemma NoDup_emails_snoc (us : list user) (u : user) :
  NoDup (email <$> us) → email u ∉ email <$> us → NoDup (email <$> (us ++ [u])%list).
Proof.
  intros Hnd Hnew. rewrite fmap_app. apply NoDup_app. split_and!; [done| |].
  - intros x Hx. simpl. rewrite list_elem_of_singleton. by intros ->.
  - simpl. apply NoDup_singleton.
Qed.

(** [updateOne] touches [user_type] only, in one document only. *)
Lemma update_first_names p r us :
  name <$> update_first p (set_user_type r) us = name <$> us.
Proof. induction us as [|u us IH]; simpl; [done|]. destruct (p u); simpl; by f_equal. Qed.

Lemma update_first_emails p r us :
  email <$> update_first p (set_user_type r) us = email <$> us.
Proof. induction us as [|u us IH]; simpl; [done|]. destruct (p u); simpl; by f_equal. Qed.

Lemma update_first_passwords p r us :
  password <$> update_first p (set_user_type r) us = password <$> us.
Proof. induction us as [|u us IH]; simpl; [done|]. destruct (p u); simpl; by f_equal. Qed.

Lemma update_first_length p f us :
  length (update_first p f us) = length us.
Proof. induction us as [|u us IH]; simpl; [done|]. destruct (p u); simpl; by f_equal. Qed.

Lemma update_first_none p f us :
  Forall (λ u, p u = false) us → update_first p f us = us.
Proof.
  induction 1 as [|u us Hu _ IH]; simpl; [done|]. rewrite Hu. by f_equal.
Qed.

(** Every document is as it was, or is the first match with its role set. *)
Lemma update_first_lookup p r us i u :
  us !! i = Some u →
  update_first p (set_user_type r) us !! i = Some u ∨
  (p u = true ∧ List.find p us = Some u ∧
   update_first p (set_user_type r) us !! i = Some (set_user_type r u)).
Proof.
  revert i. induction us as [|u0 us IH]; intros i Hi; [done|].
  simpl. destruct (p u0) eqn:Hp0.
  - destruct i as [|i]; simpl in *; [|by left].
    injection Hi as ->. right. split_and!; simpl; rewrite ?Hp0; done.
  - destruct i as [|i]; simpl in *; [by left|].
    destruct (IH i Hi) as [?|(? & ? & ?)]; [by left|].
    right. split_and!; simpl; rewrite ?Hp0; done.
Qed.

(** After the update, the first match is found with the new role. *)
Lemma find_update_first e r us u :
  List.find (has_email e) us = Some u →
  List.find (has_email e) (update_first (has_email e) (set_user_type r) us)
  = Some (set_user_type r u).
Proof.
  induction us as [|u0 us IH]; simpl; [done|].
  destruct (has_email e u0) eqn:Hu0.
  - intros [= ->]. simpl. unfold has_email in *. simpl. by rewrite Hu0.
  - intros Hf. simpl. rewrite Hu0. auto.
Qed.

(** ** Signup *)

(** Unfolding the monad on a given state. *)
Ltac exec :=
  unfold run, send, render, redirect, respond, findOne, insertOne, updateOne,
    find_toArray, session_user, set_session_user, session_destroy, deref, throw;
  unfold mbind, mret, M_bind, M_ret; simpl.

Section signup.
Context `{Library}.

Lemma App_signupPost_invalid req err us ss :
  validate App.signup_schema (body req) = inl err →
  run (App.signupPost req) us ss = (Val tt, mkSt us ss [Send 400 (Details err)]).
Proof. intros Hv. unfold App.signupPost. rewrite Hv. by exec. Qed.

Lemma App_signupPost_duplicate req v u us ss :
  validate App.signup_schema (body req) = inr v →
  List.find (has_email (v !!! "email")) us = Some u →
  run (App.signupPost req) us ss
  = (Val tt, mkSt us ss [Send 400 (Text "Email already exists")]).
Proof. intros Hv Hf. unfold App.signupPost. rewrite Hv. exec. by rewrite Hf. Qed.

Lemma App_signupPost_fresh req v us ss :
  validate App.signup_schema (body req) = inr v →
  List.find (has_email (v !!! "email")) us = None →
  let newUser :=
    mkUser (v !!! "name") (v !!! "email")
      (bcrypt_hash (salt req) (v !!! "password")) (Some "user") in
  run (App.signupPost req) us ss
  = (Val tt, mkSt (us ++ [newUser]) (<[sid req := identity_of newUser]> ss)
               [Redirect "/members"]).
Proof. intros Hv Hf. unfold App.signupPost. rewrite Hv. exec. by rewrite Hf. Qed.

Lemma Part000_signupPost_invalid req err us ss :
  validate Part000.signup_schema (body req) = inl err →
  run (Part000.signupPost req) us ss = (Val tt, mkSt us ss [Send 400 (Details err)]).
Proof. intros Hv. unfold Part000.signupPost. rewrite Hv. by exec. Qed.

Lemma Part000_signupPost_duplicate req v u us ss :
  validate Part000.signup_schema (body req) = inr v →
  List.find (has_email (v !!! "email")) us = Some u →
  run (Part000.signupPost req) us ss
  = (Val tt, mkSt us ss [Send 400 (Text "Email already exists")]).
Proof. intros Hv Hf. unfold Part000.signupPost. rewrite Hv. exec. by rewrite Hf. Qed.

Lemma Part000_signupPost_fresh req v us ss :
  validate Part000.signup_schema (body req) = inr v →
  List.find (has_email (v !!! "email")) us = None →
  let newUser :=
    mkUser (v !!! "name") (v !!! "email")
      (bcrypt_hash (salt req) (v !!! "password")) None in
  run (Part000.signupPost req) us ss
  = (Val tt, mkSt (us ++ [newUser]) (<[sid req := identity_of newUser]> ss)
               [Redirect "/members"]).
Proof. intros Hv Hf. unfold Part000.signupPost. rewrite Hv. exec. by rewrite Hf. Qed.

(** The three ways [signupPost] ends. *)
Lemma App_signupPost_cases req us ss :
  (∃ err, validate App.signup_schema (body req) = inl err ∧
     run (App.signupPost req) us ss = (Val tt, mkSt us ss [Send 400 (Details err)])) ∨
  (∃ v u, validate App.signup_schema (body req) = inr v ∧
     List.find (has_email (v !!! "email")) us = Some u ∧
     run (App.signupPost req) us ss
     = (Val tt, mkSt us ss [Send 400 (Text "Email already exists")])) ∨
  (∃ v, validate App.signup_schema (body req) = inr v ∧
     List.find (has_email (v !!! "email")) us = None ∧
     run (App.signupPost req) us ss
     = (Val tt, mkSt (us ++ [mkUser (v !!! "name") (v !!! "email")
                               (bcrypt_hash (salt req) (v !!! "password")) (Some "user")])
                  (<[sid req := mkIdentity (v !!! "name") (v !!! "email") (Some "user")]> ss)
                  [Redirect "/members"])).
Proof.
  destruct (validate App.signup_schema (body req)) as [err|v] eqn:Hv.
  { left. exists err. split; [done|]. by apply App_signupPost_invalid. }
  destruct (List.find (has_email (v !!! "email")) us) as [u|] eqn:Hf.
  - right; left. exists v, u. split_and!; try done. by eapply App_signupPost_duplicate.
  - right; right. exists v. split_and!; try done. by apply App_signupPost_fresh.
Qed.

Lemma Part000_signupPost_cases req us ss :
  (∃ err, validate Part000.signup_schema (body req) = inl err ∧
     run (Part000.signupPost req) us ss = (Val tt, mkSt us ss [Send 400 (Details err)])) ∨
  (∃ v u, validate Part000.signup_schema (body req) = inr v ∧
     List.find (has_email (v !!! "email")) us = Some u ∧
     run (Part000.signupPost req) us ss
     = (Val tt, mkSt us ss [Send 400 (Text "Email already exists")])) ∨
  (∃ v, validate Part000.signup_schema (body req) = inr v ∧
     List.find (has_email (v !!! "email")) us = None ∧
     run (Part000.signupPost req) us ss
     = (Val tt, mkSt (us ++ [mkUser (v !!! "name") (v !!! "email")
                               (bcrypt_hash (salt req) (v !!! "password")) None])
                  (<[sid req := mkIdentity (v !!! "name") (v !!! "email") None]> ss)
                  [Redirect "/members"])).
Proof.
  destruct (validate Part000.signup_schema (body req)) as [err|v] eqn:Hv.
  { left. exists err. split; [done|]. by apply Part000_signupPost_invalid. }
  destruct (List.find (has_email (v !!! "email")) us) as [u|] eqn:Hf.
  - right; left. exists v, u. split_and!; try done. by eapply Part000_signupPost_duplicate.
  - right; right. exists v. split_and!; try done. by apply Part000_signupPost_fresh.
Qed.

(** Neither [signupPost] ever makes two documents share an email. *)
Lemma App_signupPost_unique req us ss :
  NoDup (email <$> us) → NoDup (email <$> users (run (App.signupPost req) us ss).2).
Proof.
  intros Hnd.
  destruct (App_signupPost_cases req us ss)
    as [(? & _ & ->)|[(? & ? & _ & _ & ->)|(v & _ & Hf & ->)]]; simpl; try done.
  apply NoDup_emails_snoc; [done|]. by apply find_email_None.
Qed.

Lemma Part000_signupPost_unique req us ss :
  NoDup (email <$> us) → NoDup (email <$> users (run (Part000.signupPost req) us ss).2).
Proof.
  intros Hnd.
  destruct (Part000_signupPost_cases req us ss)
    as [(? & _ & ->)|[(? & ? & _ & _ & ->)|(v & _ & Hf & ->)]]; simpl; try done.
  apply NoDup_emails_snoc; [done|]. by apply find_email_None.
Qed.

End signup.

Section signup_claims.
Context `{Library}.

(** The file without roles bounds every field in its own schema. *)
Lemma Part000_signupPost_rejects req n e p us ss :
  body req !! "name" = Some (BStr n) →
  body req !! "email" = Some (BStr e) →
  body req !! "password" = Some (BStr p) →
  violates_constraints n e p →
  ∃ err, run (Part000.signupPost req) us ss
         = (Val tt, mkSt us ss [Send 400 (Details err)]).
Proof.
  intros Hn He Hp Hbad. unfold violates_constraints, length_bound, password_min in Hbad.
  destruct (validate Part000.signup_schema (body req)) as [err|v] eqn:Hv.
  { exists err. by apply Part000_signupPost_invalid. }
  exfalso. apply Part000_signup_valid in Hv
    as (n' & e' & p' & Hn' & He' & Hp' & ? & ? & Hmail & ? & ? & _).
  rewrite Hn in Hn'. rewrite He in He'. rewrite Hp in Hp'.
  injection Hn' as <-. injection He' as <-. injection Hp' as <-.
  destruct Hbad as [?|[?|[?|[?|?]]]]; try done; try lia. congruence.
Qed.

(** [app.js] has no [max] on the email: there the bound on its length is
    the one the address test of the validator has. *)
Lemma App_signupPost_rejects req n e p us ss :
  email_length_checked →
  body req !! "name" = Some (BStr n) →
  body req !! "email" = Some (BStr e) →
  body req !! "password" = Some (BStr p) →
  violates_constraints n e p →
  ∃ err, run (App.signupPost req) us ss
         = (Val tt, mkSt us ss [Send 400 (Details err)]).
Proof.
  intros Hlen Hn He Hp Hbad. unfold violates_constraints, length_bound, password_min in Hbad.
  destruct (validate App.signup_schema (body req)) as [err|v] eqn:Hv.
  { exists err. by apply App_signupPost_invalid. }
  exfalso. apply App_signup_valid in Hv
    as (n' & e' & p' & Hn' & He' & Hp' & ? & ? & Hmail & ? & _).
  rewrite Hn in Hn'. rewrite He in He'. rewrite Hp in Hp'.
  injection Hn' as <-. injection He' as <-. injection Hp' as <-.
  pose proof (Hlen _ Hmail).
  destruct Hbad as [?|[?|[?|[?|?]]]]; try done; try lia. congruence.
Qed.

(** A field that is missing, or is not a string, is refused as well. *)
Lemma signupPost_rejects_malformed req key us ss :
  key ∈ ["name"; "email"; "password"] →
  (∀ s, body req !! key ≠ Some (BStr s)) →
  (∃ err, run (App.signupPost req) us ss
          = (Val tt, mkSt us ss [Send 400 (Details err)])) ∧
  (∃ err, run (Part000.signupPost req) us ss
          = (Val tt, mkSt us ss [Send 400 (Details err)])).
Proof.
  intros Hkey Hno. split.
  - destruct (validate App.signup_schema (body req)) as [err|v] eqn:Hv.
    { exists err. by apply App_signupPost_invalid. }
    exfalso. apply App_signup_valid in Hv as (n & e & p & Hn & He & Hp & _).
    repeat (apply elem_of_cons in Hkey as [->|Hkey]; [by eapply Hno|]).
    by apply elem_of_nil in Hkey.
  - destruct (validate Part000.signup_schema (body req)) as [err|v] eqn:Hv.
    { exists err. by apply Part000_signupPost_invalid. }
    exfalso. apply Part000_signup_valid in Hv as (n & e & p & Hn & He & Hp & _).
    repeat (apply elem_of_cons in Hkey as [->|Hkey]; [by eapply Hno|]).
    by apply elem_of_nil in Hkey.
Qed.

(** C7.  A registration whose name is empty or longer than the bound,
    whose email is not well-formed or longer than the bound, or whose
    password is shorter than the minimum, is answered with status 400 and
    the validator's message, in both files; no document is inserted and no
    session is written. *)
Theorem signupPost_rejects_invalid req n e p us ss :
  email_length_checked →
  body req !! "name" = Some (BStr n) →
  body req !! "email" = Some (BStr e) →
  body req !! "password" = Some (BStr p) →
  violates_constraints n e p →
  (∃ err, run (App.signupPost req) us ss
          = (Val tt, mkSt us ss [Send 400 (Details err)])) ∧
  (∃ err, run (Part000.signupPost req) us ss
          = (Val tt, mkSt us ss [Send 400 (Details err)])).
Proof.
  intros Hlen Hn He Hp Hbad. split.
  - by eapply App_signupPost_rejects.
  - by eapply Part000_signupPost_rejects.
Qed.

(** C8.  A registration that passes validation and whose email is already
    the email of a document is answered with status 400 and
    [Email already exists], in both files; nothing is inserted and no
    session is written.  And whatever the request, a collection whose
    emails are pairwise distinct stays so. *)
Theorem signupPost_duplicate_email req e us ss :
  body req !! "email" = Some (BStr e) →
  e ∈ email <$> us →
  (∀ v, validate App.signup_schema (body req) = inr v →
     run (App.signupPost req) us ss
     = (Val tt, mkSt us ss [Send 400 (Text "Email already exists")])) ∧
  (∀ v, validate Part000.signup_schema (body req) = inr v →
     run (Part000.signupPost req) us ss
     = (Val tt, mkSt us ss [Send 400 (Text "Email already exists")])) ∧
  (∀ req', NoDup (email <$> us) →
     NoDup (email <$> users (run (App.signupPost req') us ss).2) ∧
     NoDup (email <$> users (run (Part000.signupPost req') us ss).2)).
Proof.
  intros He Hin. split_and!.
  - intros v Hv.
    destruct (App_signup_valid _ _ Hv) as (_ & e' & _ & _ & He' & _ & _ & _ & _ & _ & _ & Hl & _).
    rewrite He in He'. injection He' as <-.
    destruct (List.find (has_email (v !!! "email")) us) as [u|] eqn:Hf.
    + by eapply App_signupPost_duplicate.
    + apply find_email_None in Hf. by rewrite Hl in Hf.
  - intros v Hv.
    destruct (Part000_signup_valid _ _ Hv)
      as (_ & e' & _ & _ & He' & _ & _ & _ & _ & _ & _ & _ & Hl & _).
    rewrite He in He'. injection He' as <-.
    destruct (List.find (has_email (v !!! "email")) us) as [u|] eqn:Hf.
    + by eapply Part000_signupPost_duplicate.
    + apply find_email_None in Hf. by rewrite Hl in Hf.
  - intros req' Hnd. split.
    + by apply App_signupPost_unique.
    + by apply Part000_signupPost_unique.
Qed.

(** C3, as amended.  Every registration that succeeds appends one
    document that holds the name, the email and the hash of the password,
    never the password itself, and writes to the session of the caller
    the identity of that very document.  In [app.js] the role of the
    document is [user]; the other file stores no role in the document and
    none in the session. *)
Theorem signupPost_registers req us ss :
  hash_never_plaintext →
  (registered (run (App.signupPost req) us ss) →
   ∃ n e p,
     body req !! "name" = Some (BStr n) ∧ body req !! "email" = Some (BStr e) ∧
     body req !! "password" = Some (BStr p) ∧
     let newUser := mkUser n e (bcrypt_hash (salt req) p) (Some "user") in
     users (run (App.signupPost req) us ss).2 = (us ++ [newUser])%list ∧
     password newUser ≠ p ∧
     sessions (run (App.signupPost req) us ss).2 = <[sid req := identity_of newUser]> ss) ∧
  (registered (run (Part000.signupPost req) us ss) →
   ∃ n e p,
     body req !! "name" = Some (BStr n) ∧ body req !! "email" = Some (BStr e) ∧
     body req !! "password" = Some (BStr p) ∧
     let newUser := mkUser n e (bcrypt_hash (salt req) p) None in
     users (run (Part000.signupPost req) us ss).2 = (us ++ [newUser])%list ∧
     password newUser ≠ p ∧
     sessions (run (Part000.signupPost req) us ss).2 = <[sid req := identity_of newUser]> ss).
Proof.
  intros Hhash. split; intros [_ Hsent].
  - destruct (App_signupPost_cases req us ss)
      as [(? & _ & Hr)|[(? & ? & _ & _ & Hr)|(v & Hv & _ & Hr)]];
      rewrite Hr in Hsent |- *; try done.
    destruct (App_signup_valid _ _ Hv)
      as (n & e & p & ? & ? & ? & _ & _ & _ & _ & Hn & He & Hp).
    rewrite Hn, He, Hp. exists n, e, p. simpl. split_and!; first [done | apply Hhash].
  - destruct (Part000_signupPost_cases req us ss)
      as [(? & _ & Hr)|[(? & ? & _ & _ & Hr)|(v & Hv & _ & Hr)]];
      rewrite Hr in Hsent |- *; try done.
    destruct (Part000_signup_valid _ _ Hv)
      as (n & e & p & ? & ? & ? & _ & _ & _ & _ & _ & Hn & He & Hp).
    rewrite Hn, He, Hp. exists n, e, p. simpl. split_and!; first [done | apply Hhash].
Qed.

End signup_claims.

(** ** The concrete library *)

Lemma length_app_string (a b : string) :
  String.length (a +:+ b) = (String.length a + String.length b)%nat.
Proof. induction a as [|c a IH]; simpl; [done | by rewrite IH]. Qed.

Lemma toy_email_length_checked : email_length_checked (H := toy).
Proof.
  intros a. simpl. unfold toy_isEmail.
  intros [_ Hl%bool_decide_eq_true]%andb_true_iff. done.
Qed.

Lemma toy_hash_never_plaintext : hash_never_plaintext (H := toy).
Proof.
  intros s p Heq. simpl in Heq. unfold toy_hash in Heq.
  apply (f_equal String.length) in Heq.
  rewrite !length_app_string in Heq. simpl in Heq. lia.
Qed.

Lemma signupPost_rejects_invalid_witness :
  violates_constraints (H := toy) "Bob" "bob@x.com" "abc" ∧
  (∃ err, run (App.signupPost (H := toy) register_short_password) [alice] ∅
          = (Val tt, mkSt [alice] ∅ [Send 400 (Details err)])) ∧
  (∃ err, run (Part000.signupPost (H := toy) register_short_password) [alice] ∅
          = (Val tt, mkSt [alice] ∅ [Send 400 (Details err)])).
Proof.
  assert (violates_constraints (H := toy) "Bob" "bob@x.com" "abc") as Hbad.
  { do 4 right. unfold password_min. simpl. lia. }
  split; [exact Hbad|].
  apply (signupPost_rejects_invalid (H := toy) register_short_password
           "Bob" "bob@x.com" "abc" [alice] ∅ toy_email_length_checked);
    [reflexivity | reflexivity | reflexivity | exact Hbad].
Defined.

Lemma signupPost_duplicate_email_witness :
  "alice@x.com" ∈ email <$> [alice] ∧
  run (App.signupPost (H := toy) register_alice_again) [alice] ∅
  = (Val tt, mkSt [alice] ∅ [Send 400 (Text "Email already exists")]) ∧
  run (Part000.signupPost (H := toy) register_alice_again) [alice] ∅
  = (Val tt, mkSt [alice] ∅ [Send 400 (Text "Email already exists")]).
Proof.
  assert ("alice@x.com" ∈ email <$> [alice]) as Hin by (simpl; apply list_elem_of_here).
  split; [exact Hin|].
  destruct (signupPost_duplicate_email (H := toy) register_alice_again
              "alice@x.com" [alice] ∅ eq_refl Hin) as (Happ & Hpart & _).
  split.
  - eapply Happ. vm_compute. reflexivity.
  - eapply Hpart. vm_compute. reflexivity.
Defined.

Lemma signupPost_registers_witness :
  registered (run (App.signupPost (H := toy) register_bob) [alice] ∅) ∧
  users (run (App.signupPost (H := toy) register_bob) [alice] ∅).2
  = [alice; mkUser "Bob" "bob@x.com" (toy_hash "salt" "secret2") (Some "user")] ∧
  sessions (run (App.signupPost (H := toy) register_bob) [alice] ∅).2
  = {["sid-bob" := mkIdentity "Bob" "bob@x.com" (Some "user")]}.
Proof.
  assert (registered (run (App.signupPost (H := toy) register_bob) [alice] ∅)) as Hreg.
  { split; vm_compute; reflexivity. }
  split; [exact Hreg|].
  destruct (signupPost_registers (H := toy) register_bob [alice] ∅
              toy_hash_never_plaintext) as [Happ _].
  destruct (Happ Hreg) as (n & e & p & Hn & He & Hp & Hus & _ & Hss).
  injection Hn as <-. injection He as <-. injection Hp as <-.
  split; [exact Hus | exact Hss].
Defined.

(** C3 as it is stated fails in the file without roles: the document it
    inserts on a successful registration has no role, not the role
    [user]. *)
Lemma signupPost_role_counterexample :
  registered (run (Part000.signupPost (H := toy) register_bob) [alice] ∅) ∧
  users (run (Part000.signupPost (H := toy) register_bob) [alice] ∅).2
  = [alice; mkUser "Bob" "bob@x.com" (toy_hash "salt" "secret2") None] ∧
  ¬ (∃ u, users (run (Part000.signupPost (H := toy) register_bob) [alice] ∅).2
          = ([alice] ++ [u])%list ∧ user_type u = Some "user").
Proof.
  split_and!.
  - split; vm_compute; reflexivity.
  - vm_compute. reflexivity.
  - intros (u & Hu & Hrole).
    assert (users (run (Part000.signupPost (H := toy) register_bob) [alice] ∅).2
            = [alice; mkUser "Bob" "bob@x.com" (toy_hash "salt" "secret2") None]) as Hrun
      by (vm_compute; reflexivity).
    rewrite Hrun in Hu. simpl in Hu. injection Hu as <-. discriminate Hrole.
Qed.

(** ** Login *)

Section login.
Context `{Library}.

Lemma App_loginPost_invalid req err us ss :
  validate App.login_schema (body req) = inl err →
  run (App.loginPost req) us ss = (Val tt, mkSt us ss [Send 400 (Details err)]).
Proof. intros Hv. unfold App.loginPost. rewrite Hv. by exec. Qed.

(** [app.js], password verified: the session is assigned and the caller
    is redirected. *)
Lemma App_loginPost_success req v u us ss :
  validate App.login_schema (body req) = inr v →
  List.find (has_email (v !!! "email")) us = Some u →
  bcrypt_compare (v !!! "password") (password u) = true →
  run (App.loginPost req) us ss
  = (Val tt, mkSt us (<[sid req := identity_of u]> ss) [Redirect "/"]).
Proof.
  intros Hv Hf Hc. unfold App.loginPost. rewrite Hv. exec. rewrite Hf, Hc. by exec.
Qed.

(** [app.js], password refused: the failure view is rendered, and then
    the session is assigned all the same and [res.redirect] is called. *)
Lemma App_loginPost_wrong_password req v u us ss :
  validate App.login_schema (body req) = inr v →
  List.find (has_email (v !!! "email")) us = Some u →
  bcrypt_compare (v !!! "password") (password u) = false →
  run (App.loginPost req) us ss
  = (Val tt, mkSt us (<[sid req := identity_of u]> ss)
               [invalid_credentials_app; Redirect "/"]).
Proof.
  intros Hv Hf Hc. unfold App.loginPost. rewrite Hv. exec. rewrite Hf, Hc. by exec.
Qed.

(** [app.js], no document with the email: the failure view is rendered,
    and then reading [user.name] throws. *)
Lemma App_loginPost_unknown_email req v us ss :
  validate App.login_schema (body req) = inr v →
  List.find (has_email (v !!! "email")) us = None →
  run (App.loginPost req) us ss
  = (Throw (TypeError "Cannot read properties of null"),
     mkSt us ss [invalid_credentials_app]).
Proof.
  intros Hv Hf. unfold App.loginPost. rewrite Hv. exec. rewrite Hf. by exec.
Qed.

Lemma Part000_loginPost_invalid req err us ss :
  validate Part000.login_schema (body req) = inl err →
  run (Part000.loginPost req) us ss = (Val tt, mkSt us ss [Send 400 (Details err)]).
Proof. intros Hv. unfold Part000.loginPost. rewrite Hv. by exec. Qed.

Lemma Part000_loginPost_success req v u us ss :
  validate Part000.login_schema (body req) = inr v →
  List.find (has_email (v !!! "email")) us = Some u →
  bcrypt_compare (v !!! "password") (password u) = true →
  run (Part000.loginPost req) us ss
  = (Val tt, mkSt us (<[sid req := mkIdentity (name u) (email u) None]> ss) [Redirect "/"]).
Proof.
  intros Hv Hf Hc. unfold Part000.loginPost. rewrite Hv. exec. rewrite Hf, Hc. by exec.
Qed.

Lemma Part000_loginPost_wrong_password req v u us ss :
  validate Part000.login_schema (body req) = inr v →
  List.find (has_email (v !!! "email")) us = Some u →
  bcrypt_compare (v !!! "password") (password u) = false →
  run (Part000.loginPost req) us ss = (Val tt, mkSt us ss [invalid_credentials_part000]).
Proof.
  intros Hv Hf Hc. unfold Part000.loginPost. rewrite Hv. exec. rewrite Hf, Hc. by exec.
Qed.

Lemma Part000_loginPost_unknown_email req v us ss :
  validate Part000.login_schema (body req) = inr v →
  List.find (has_email (v !!! "email")) us = None →
  run (Part000.loginPost req) us ss = (Val tt, mkSt us ss [invalid_credentials_part000]).
Proof.
  intros Hv Hf. unfold Part000.loginPost. rewrite Hv. exec. rewrite Hf. by exec.
Qed.

(** The file without roles fails a login cleanly: with no document for the
    email, or with one whose hash refuses the password, the failure view is
    the only answer and the stores are untouched; a session is written
    exactly when the password verifies, from the document found. *)
Lemma Part000_loginPost_authenticates req v us ss :
  validate Part000.login_schema (body req) = inr v →
  match List.find (has_email (v !!! "email")) us with
  | Some u =>
      if bcrypt_compare (v !!! "password") (password u)
      then run (Part000.loginPost req) us ss
           = (Val tt, mkSt us (<[sid req := mkIdentity (name u) (email u) None]> ss)
                        [Redirect "/"])
      else run (Part000.loginPost req) us ss
           = (Val tt, mkSt us ss [invalid_credentials_part000])
  | None =>
      run (Part000.loginPost req) us ss = (Val tt, mkSt us ss [invalid_credentials_part000])
  end.
Proof.
  intros Hv. destruct (List.find (has_email (v !!! "email")) us) as [u|] eqn:Hf.
  - destruct (bcrypt_compare (v !!! "password") (password u)) eqn:Hc.
    + by eapply Part000_loginPost_success.
    + by eapply Part000_loginPost_wrong_password.
  - by eapply Part000_loginPost_unknown_email.
Qed.

(** And its two failures cannot be told apart: same single call on [res],
    same (unchanged) stores. *)
Lemma Part000_loginPost_failures_alike req1 req2 v1 v2 u us ss :
  validate Part000.login_schema (body req1) = inr v1 →
  validate Part000.login_schema (body req2) = inr v2 →
  List.find (has_email (v1 !!! "email")) us = Some u →
  bcrypt_compare (v1 !!! "password") (password u) = false →
  List.find (has_email (v2 !!! "email")) us = None →
  run (Part000.loginPost req1) us ss = run (Part000.loginPost req2) us ss.
Proof.
  intros Hv1 Hv2 Hf1 Hc Hf2.
  erewrite Part000_loginPost_wrong_password by done.
  by erewrite Part000_loginPost_unknown_email by done.
Qed.

(** In [app.js] the two failures render the same view first. *)
Lemma App_loginPost_failures_first_call req1 req2 v1 v2 u us ss :
  validate App.login_schema (body req1) = inr v1 →
  validate App.login_schema (body req2) = inr v2 →
  List.find (has_email (v1 !!! "email")) us = Some u →
  bcrypt_compare (v1 !!! "password") (password u) = false →
  List.find (has_email (v2 !!! "email")) us = None →
  head (sent (run (App.loginPost req1) us ss).2) = Some invalid_credentials_app ∧
  head (sent (run (App.loginPost req2) us ss).2) = Some invalid_credentials_app.
Proof.
  intros Hv1 Hv2 Hf1 Hc Hf2.
  erewrite App_loginPost_wrong_password by done.
  by erewrite App_loginPost_unknown_email by done.
Qed.

End login.

(** On the sample data: the right password logs Alice in, in both files. *)
Example App_loginPost_alice :
  run (App.loginPost (H := toy) login_alice) [alice] ∅
  = (Val tt, mkSt [alice] {["sid-1" := identity_of alice]} [Redirect "/"]).
Proof. vm_compute. reflexivity. Qed.

Example Part000_loginPost_alice :
  run (Part000.loginPost (H := toy) login_alice) [alice] ∅
  = (Val tt, mkSt [alice] {["sid-1" := mkIdentity "Alice" "alice@x.com" None]}
               [Redirect "/"]).
Proof. vm_compute. reflexivity. Qed.

(** C1.  [loginPost] of [app.js] does not stop at a failed login.  With
    a wrong password for a registered email it renders the failure view
    and then assigns to the session the identity of the document found,
    and calls [res.redirect]; with an email nobody registered it renders
    the failure view and then throws on reading [user.name]. *)
Theorem App_loginPost_fallthrough :
  bcrypt_compare (Library := toy) "wrong" (password alice) = false ∧
  run (App.loginPost (H := toy) login_alice_wrong) [alice] ∅
  = (Val tt, mkSt [alice] {["sid-1" := identity_of alice]}
               [invalid_credentials_app; Redirect "/"]) ∧
  run (App.loginPost (H := toy) login_nobody) [alice] ∅
  = (Throw (TypeError "Cannot read properties of null"),
     mkSt [alice] ∅ [invalid_credentials_app]).
Proof. split_and!; vm_compute; reflexivity. Qed.

(** C2.  The two failed logins of [app.js] can be told apart.  Both
    render the same failure view first; after it the wrong password
    leaves a session and a second call on [res], the unknown email an
    exception and no session. *)
Theorem App_loginPost_failures_differ :
  head (sent (run (App.loginPost (H := toy) login_alice_wrong) [alice] ∅).2)
  = head (sent (run (App.loginPost (H := toy) login_nobody) [alice] ∅).2) ∧
  sessions (run (App.loginPost (H := toy) login_alice_wrong) [alice] ∅).2 !! "sid-1"
  = Some (identity_of alice) ∧
  sessions (run (App.loginPost (H := toy) login_nobody) [alice] ∅).2 !! "sid-1" = None ∧
  run (App.loginPost (H := toy) login_alice_wrong) [alice] ∅
  ≠ run (App.loginPost (H := toy) login_nobody) [alice] ∅.
Proof.
  split_and!; try (vm_compute; reflexivity).
  intros Heq. apply (f_equal fst) in Heq. vm_compute in Heq. discriminate Heq.
Qed.

(** ** The gates *)

Lemma isLoggedIn_session req next u us ss :
  ss !! sid req = Some u →
  run (App.isLoggedIn req next) us ss = run next us ss.
Proof. intros Hs. unfold App.isLoggedIn. exec. by rewrite Hs. Qed.

Lemma isLoggedIn_no_session req next us ss :
  ss !! sid req = None →
  run (App.isLoggedIn req next) us ss = (Val tt, mkSt us ss [Redirect "/login"]).
Proof. intros Hs. unfold App.isLoggedIn. exec. by rewrite Hs. Qed.

Lemma isAdmin_admin req next u us ss :
  ss !! sid req = Some u → sess_user_type u = Some "admin" →
  run (App.isAdmin req next) us ss = run next us ss.
Proof.
  intros Hs Hr. unfold App.isAdmin. exec. rewrite Hs, Hr. by rewrite bool_decide_eq_true_2.
Qed.

Lemma isAdmin_other req next u us ss :
  ss !! sid req = Some u → sess_user_type u ≠ Some "admin" →
  run (App.isAdmin req next) us ss
  = (Val tt, mkSt us ss [Render 403 "403" [("user", VIdentity u)]]).
Proof.
  intros Hs Hr. unfold App.isAdmin. exec. rewrite Hs. by rewrite bool_decide_eq_false_2.
Qed.

(** The gates of the admin routes, on every session state. *)
Lemma admin_gates req h us ss :
  run (App.chain [App.isLoggedIn; App.isAdmin] req h) us ss =
  match ss !! sid req with
  | None => (Val tt, mkSt us ss [Redirect "/login"])
  | Some u =>
      if decide (sess_user_type u = Some "admin") then run h us ss
      else (Val tt, mkSt us ss [Render 403 "403" [("user", VIdentity u)]])
  end.
Proof.
  simpl. destruct (ss !! sid req) as [u|] eqn:Hs.
  - erewrite isLoggedIn_session by done. case_decide.
    + by eapply isAdmin_admin.
    + by eapply isAdmin_other.
  - by apply isLoggedIn_no_session.
Qed.

Lemma members_gate req h us ss :
  run (App.chain [App.isLoggedIn] req h) us ss =
  match ss !! sid req with
  | None => (Val tt, mkSt us ss [Redirect "/login"])
  | Some u => run h us ss
  end.
Proof.
  simpl. destruct (ss !! sid req) as [u|] eqn:Hs.
  - by eapply isLoggedIn_session.
  - by apply isLoggedIn_no_session.
Qed.

(** The decisions of the two gate lists are those of [authorize]. *)
Lemma members_gate_decision req us ss :
  gate_decision [App.isLoggedIn] req us ss = authorize (ss !! sid req) None.
Proof. unfold gate_decision. rewrite members_gate. by destruct (ss !! sid req). Qed.

Lemma admin_gate_decision req us ss :
  gate_decision [App.isLoggedIn; App.isAdmin] req us ss
  = authorize (ss !! sid req) (Some "admin").
Proof.
  unfold gate_decision. rewrite admin_gates. destruct (ss !! sid req); [|done].
  simpl. by case_decide.
Qed.

(** Which gates stand before which route. *)
Lemma route_gates `{Library} req :
  App.dispatch GET "/members" req = App.chain [App.isLoggedIn] req (App.members req) ∧
  App.dispatch GET "/admin" req
  = App.chain [App.isLoggedIn; App.isAdmin] req (App.admin req) ∧
  App.dispatch POST "/promote" req
  = App.chain [App.isLoggedIn; App.isAdmin] req (App.promote req) ∧
  App.dispatch POST "/demote" req
  = App.chain [App.isLoggedIn; App.isAdmin] req (App.demote req).
Proof. split_and!; reflexivity. Qed.

(** C4.  The gate of the members route allows exactly when [authorize]
    with no required role does, and the gates of the admin routes exactly
    when [authorize] with required role [admin] does: a session must
    exist, and for the admin routes its role must be [admin].  So a
    session of role [user] is denied on the admin routes, a session of
    role [admin] is allowed, and no session is denied everywhere.  On
    allow the handler runs on the untouched state; on deny it does not
    run. *)
Theorem gates_authorize req us ss :
  gate_decision [App.isLoggedIn] req us ss = authorize (ss !! sid req) None ∧
  gate_decision [App.isLoggedIn; App.isAdmin] req us ss
  = authorize (ss !! sid req) (Some "admin") ∧
  (∀ u, ss !! sid req = Some u → sess_user_type u = Some "user" →
        gate_decision [App.isLoggedIn; App.isAdmin] req us ss = deny) ∧
  (∀ u, ss !! sid req = Some u → sess_user_type u = Some "admin" →
        gate_decision [App.isLoggedIn; App.isAdmin] req us ss = allow) ∧
  (ss !! sid req = None →
        gate_decision [App.isLoggedIn] req us ss = deny ∧
        gate_decision [App.isLoggedIn; App.isAdmin] req us ss = deny) ∧
  (∀ gates h, gates = [App.isLoggedIn] ∨ gates = [App.isLoggedIn; App.isAdmin] →
        match gate_decision gates req us ss with
        | allow => run (App.chain gates req h) us ss = run h us ss
        | deny =>
            run (App.chain gates req h) us ss = run (App.chain gates req (mret tt)) us ss ∧
            users (run (App.chain gates req h) us ss).2 = us ∧
            sessions (run (App.chain gates req h) us ss).2 = ss
        end).
Proof.
  pose proof (members_gate_decision req us ss) as Hm.
  pose proof (admin_gate_decision req us ss) as Ha.
  split_and!; try done.
  - intros u Hs Hr. rewrite Ha, Hs. simpl. rewrite Hr. by case_decide.
  - intros u Hs Hr. rewrite Ha, Hs. simpl. rewrite Hr. by case_decide.
  - intros Hs. rewrite Hm, Ha, Hs. done.
  - intros gates h [->| ->].
    + rewrite Hm, !members_gate. by destruct (ss !! sid req).
    + rewrite Ha, !admin_gates. destruct (ss !! sid req); [|done].
      simpl. by case_decide.
Qed.

(** ** The admin routes *)

Section admin_routes.
Context `{Library}.

(** [promote] and [demote] differ in the role they set. *)
Lemma promote_run req us ss :
  run (App.promote req) us ss
  = (Val tt, mkSt (update_first (email_filter (body req !! "email")) (set_user_type "admin") us)
               ss [Redirect "/admin"]).
Proof. reflexivity. Qed.

Lemma demote_run req us ss :
  run (App.demote req) us ss
  = (Val tt, mkSt (update_first (email_filter (body req !! "email")) (set_user_type "user") us)
               ss [Redirect "/admin"]).
Proof. reflexivity. Qed.

(** A role change by an admin session, through the gates of its route. *)
Lemma setRole_run path r handler req e actor us ss :
  App.dispatch POST path req
  = App.chain [App.isLoggedIn; App.isAdmin] req (handler req) →
  (∀ us ss, run (handler req) us ss
     = (Val tt, mkSt (update_first (email_filter (body req !! "email")) (set_user_type r) us)
                  ss [Redirect "/admin"])) →
  ss !! sid req = Some actor → sess_user_type actor = Some "admin" →
  body req !! "email" = Some (BStr e) →
  run (App.dispatch POST path req) us ss
  = (Val tt, mkSt (update_first (has_email e) (set_user_type r) us) ss [Redirect "/admin"]).
Proof.
  intros -> Hh Hs Hr He. rewrite admin_gates, Hs. rewrite decide_True by done.
  rewrite Hh, He. done.
Qed.

Lemma promote_by_admin req e actor us ss :
  ss !! sid req = Some actor → sess_user_type actor = Some "admin" →
  body req !! "email" = Some (BStr e) →
  run (App.dispatch POST "/promote" req) us ss
  = (Val tt, mkSt (update_first (has_email e) (set_user_type "admin") us) ss
               [Redirect "/admin"]).
Proof. apply (setRole_run _ _ App.promote); [reflexivity | apply promote_run]. Qed.

Lemma demote_by_admin req e actor us ss :
  ss !! sid req = Some actor → sess_user_type actor = Some "admin" →
  body req !! "email" = Some (BStr e) →
  run (App.dispatch POST "/demote" req) us ss
  = (Val tt, mkSt (update_first (has_email e) (set_user_type "user") us) ss
               [Redirect "/admin"]).
Proof. apply (setRole_run _ _ App.demote); [reflexivity | apply demote_run]. Qed.

(** What a role change leaves alone, and what a login sees after it. *)
Lemma setRole_frame e r (us : list user) (ss : gmap string identity) :
  let us' := update_first (has_email e) (set_user_type r) us in
  name <$> us' = name <$> us ∧ email <$> us' = email <$> us ∧
  password <$> us' = password <$> us ∧
  (∀ i u, us !! i = Some u →
     us' !! i = Some u ∨
     (email u = e ∧ List.find (has_email e) us = Some u ∧
      us' !! i = Some (set_user_type r u))) ∧
  (∀ req' v u,
     validate App.login_schema (body req') = inr v → v !!! "email" = e →
     List.find (has_email e) us = Some u →
     bcrypt_compare (v !!! "password") (password u) = true →
     run (App.loginPost req') us' ss
     = (Val tt, mkSt us' (<[sid req' := mkIdentity (name u) (email u) (Some r)]> ss)
                  [Redirect "/"])).
Proof.
  intros us'. split_and!.
  - apply update_first_names.
  - apply update_first_emails.
  - apply update_first_passwords.
  - intros i u Hi.
    destruct (update_first_lookup (has_email e) r us i u Hi) as [?|(Hu & ? & ?)]; [by left|].
    right. split_and!; try done. by apply has_email_true.
  - intros req' v u Hv He Hf Hc.
    assert (List.find (has_email (v !!! "email")) us' = Some (set_user_type r u)) as Hf'.
    { rewrite He. by apply find_update_first. }
    by rewrite (App_loginPost_success req' v _ us' ss Hv Hf' Hc).
Qed.

(** C5.  A role change by an admin session sets the role of the first
    document with the target email and nothing else: names, emails and
    password hashes of all documents are as before, every other document
    is as before, and the session store is untouched, so a session of the
    target keeps the role it was given.  A login for the target after the
    change gets the new role. *)
Theorem setRole_changes_role_only req e actor us ss :
  ss !! sid req = Some actor → sess_user_type actor = Some "admin" →
  body req !! "email" = Some (BStr e) →
  ∀ path r, (path, r) = ("/promote", "admin") ∨ (path, r) = ("/demote", "user") →
  ∃ us',
    run (App.dispatch POST path req) us ss = (Val tt, mkSt us' ss [Redirect "/admin"]) ∧
    name <$> us' = name <$> us ∧ email <$> us' = email <$> us ∧
    password <$> us' = password <$> us ∧
    (∀ i u, us !! i = Some u →
       us' !! i = Some u ∨
       (email u = e ∧ List.find (has_email e) us = Some u ∧
        us' !! i = Some (set_user_type r u))) ∧
    (∀ k old, ss !! k = Some old → sess_email old = e →
       sessions (run (App.dispatch POST path req) us ss).2 !! k = Some old) ∧
    (∀ req' v u,
       validate App.login_schema (body req') = inr v → v !!! "email" = e →
       List.find (has_email e) us = Some u →
       bcrypt_compare (v !!! "password") (password u) = true →
       run (App.loginPost req') us' ss
       = (Val tt, mkSt us' (<[sid req' := mkIdentity (name u) (email u) (Some r)]> ss)
                    [Redirect "/"])).
Proof.
  intros Hs Hr He path r Hpath.
  exists (update_first (has_email e) (set_user_type r) us).
  assert (run (App.dispatch POST path req) us ss
          = (Val tt, mkSt (update_first (has_email e) (set_user_type r) us) ss
                       [Redirect "/admin"])) as Hrun.
  { destruct Hpath as [[= -> ->]|[= -> ->]].
    - by eapply promote_by_admin.
    - by eapply demote_by_admin. }
  destruct (setRole_frame e r us ss) as (? & ? & ? & ? & ?).
  split_and!; try done.
  intros k old Hk _. by rewrite Hrun.
Qed.

(** C6, as amended.  A role change by an admin session whose target email
    is the email of no document changes nothing and is answered like one
    that found its target: with the redirect to [/admin], and no error. *)
Theorem setRole_unknown_target req e actor us ss :
  ss !! sid req = Some actor → sess_user_type actor = Some "admin" →
  body req !! "email" = Some (BStr e) →
  e ∉ email <$> us →
  run (App.dispatch POST "/promote" req) us ss = (Val tt, mkSt us ss [Redirect "/admin"]) ∧
  run (App.dispatch POST "/demote" req) us ss = (Val tt, mkSt us ss [Redirect "/admin"]).
Proof.
  intros Hs Hr He Hnew.
  assert (∀ r, update_first (has_email e) (set_user_type r) us = us) as Hsame.
  { intros r. apply update_first_none. apply Forall_forall. intros u Hu.
    destruct (has_email e u) eqn:Hm; [|done].
    apply has_email_true in Hm. exfalso. apply Hnew.
    apply list_elem_of_fmap. by exists u. }
  split.
  - erewrite promote_by_admin by done. by rewrite Hsame.
  - erewrite demote_by_admin by done. by rewrite Hsame.
Qed.

(** C10.  On a request that passed the gates of [/admin], the handler
    reads the whole collection and hands it to the view as it is: every
    document is among the locals with all its fields, the password hash
    included. *)
Theorem admin_renders_whole_documents req actor us ss :
  ss !! sid req = Some actor → sess_user_type actor = Some "admin" →
  run (App.dispatch GET "/admin" req) us ss
  = (Val tt, mkSt us ss
       [Render 200 "admin" [("user", VIdentity actor); ("users", VUsers us)]]) ∧
  (∀ u, u ∈ us →
     ∃ locals shown,
       sent (run (App.dispatch GET "/admin" req) us ss).2 = [Render 200 "admin" locals] ∧
       ("users", VUsers shown) ∈ locals ∧
       u ∈ shown ∧ password u ∈ password <$> shown).
Proof.
  intros Hs Hr.
  assert (run (App.dispatch GET "/admin" req) us ss
          = (Val tt, mkSt us ss
               [Render 200 "admin" [("user", VIdentity actor); ("users", VUsers us)]])) as Hrun.
  { destruct (route_gates req) as (_ & -> & _).
    rewrite admin_gates, Hs. rewrite decide_True by done.
    unfold App.admin. exec. by rewrite Hs. }
  split; [done|]. intros u Hu. rewrite Hrun. simpl.
  eexists _, us. split_and!; [done | | done |].
  - apply list_elem_of_further, list_elem_of_here.
  - apply list_elem_of_fmap. by exists u.
Qed.

End admin_routes.

(** ** Sessions of other requests *)

Section frame.
Context `{Library}.

Lemma touches_ret {A} k (a : A) : touches_only k (mret a).
Proof. done. Qed.

Lemma touches_throw {A} k e : touches_only k (throw (A := A) e).
Proof. done. Qed.

Lemma touches_bind {A B} k (m : M A) (f : A → M B) :
  touches_only k m → (∀ a, touches_only k (f a)) → touches_only k (m ≫= f).
Proof.
  intros Hm Hf s k' Hk. unfold mbind, M_bind.
  specialize (Hm s k' Hk). destruct (m s) as [[a|e] s']; simpl in *; [|done].
  by rewrite Hf.
Qed.

Lemma touches_respond k c : touches_only k (respond c).
Proof. done. Qed.

Lemma touches_findOne k e : touches_only k (findOne e).
Proof. done. Qed.

Lemma touches_insertOne k u : touches_only k (insertOne u).
Proof. done. Qed.

Lemma touches_updateOne k q r : touches_only k (updateOne q r).
Proof. done. Qed.

Lemma touches_find_toArray k : touches_only k find_toArray.
Proof. done. Qed.

Lemma touches_session_user k req : touches_only k (session_user req).
Proof. done. Qed.

Lemma touches_set_session_user req u : touches_only (sid req) (set_session_user req u).
Proof. intros s k' Hk. simpl. by rewrite lookup_insert_ne. Qed.

Lemma touches_session_destroy req : touches_only (sid req) (session_destroy req).
Proof. intros s k' Hk. simpl. by rewrite lookup_delete_ne. Qed.

Lemma touches_deref {A} k (o : option A) : touches_only k (deref o).
Proof. destruct o; [apply touches_ret | apply touches_throw]. Qed.

End frame.

(** The frame of a handler, by the frames of the operations it is made of. *)
Ltac frame :=
  repeat first
    [ apply touches_bind; [|intros ?]
    | apply touches_ret
    | apply touches_throw
    | apply touches_respond
    | apply touches_findOne
    | apply touches_insertOne
    | apply touches_updateOne
    | apply touches_find_toArray
    | apply touches_session_user
    | apply touches_set_session_user
    | apply touches_session_destroy
    | apply touches_deref
    | progress unfold send, render, redirect
    | progress cbv zeta
    | match goal with
      | |- touches_only _ (match ?x with _ => _ end) => destruct x
      | |- touches_only _ (if ?x then _ else _) => destruct x
      end ].

Section frame_handlers.
Context `{Library}.

Lemma touches_isLoggedIn req next :
  touches_only (sid req) next → touches_only (sid req) (App.isLoggedIn req next).
Proof. intros Hn. unfold App.isLoggedIn. frame; done. Qed.

Lemma touches_isAdmin req next :
  touches_only (sid req) next → touches_only (sid req) (App.isAdmin req next).
Proof. intros Hn. unfold App.isAdmin. frame; done. Qed.

Lemma touches_signupPost req : touches_only (sid req) (App.signupPost req).
Proof. unfold App.signupPost. frame. Qed.

Lemma touches_loginPost req : touches_only (sid req) (App.loginPost req).
Proof. unfold App.loginPost. frame. Qed.

Lemma touches_logout req : touches_only (sid req) (App.logout req).
Proof. unfold App.logout. frame. Qed.

(** Whatever the route, [app.js] writes to the session of the request
    only. *)
Lemma touches_dispatch m path req : touches_only (sid req) (App.dispatch m path req).
Proof.
  unfold App.dispatch, App.routes. simpl.
  repeat (case_bool_decide; simpl;
          [ repeat first [apply touches_isLoggedIn | apply touches_isAdmin];
            first [ apply touches_signupPost | apply touches_loginPost
                  | apply touches_logout
                  | unfold App.home, App.signup, App.login, App.members, App.admin,
                      App.promote, App.demote; frame ] |]).
  unfold App.error404. frame.
Qed.

(** Requests that come with other session ids leave the entry under [k]
    as it is. *)
Lemma serve_other_sessions reqs k us ss :
  Forall (λ r, sid r.2 ≠ k) reqs →
  (serve reqs us ss).2 !! k = ss !! k.
Proof.
  intros Hall. revert us ss.
  induction Hall as [|[[m path] req] reqs Hk _ IH]; intros us ss; [done|].
  simpl. rewrite IH. apply (touches_dispatch m path req). simpl in Hk. congruence.
Qed.

End frame_handlers.

(** ** Logout *)

Section logout.
Context `{Library}.

(** C9.  [logout] answers with the redirect to [/] whatever the session
    store holds, in both files, and leaves the store without the entry of
    the request, all else as it was; with no entry there it changes
    nothing, and a second [logout] gives the same answer and the same
    store.  From then on the gates of [app.js] deny every request that
    comes with that session id, also after any requests that came with
    other session ids; the check of the other file redirects it too. *)
Theorem logout_idempotent req us ss :
  run (App.logout req) us ss = (Val tt, mkSt us (delete (sid req) ss) [Redirect "/"]) ∧
  run (Part000.logout req) us ss = (Val tt, mkSt us (delete (sid req) ss) [Redirect "/"]) ∧
  (ss !! sid req = None → delete (sid req) ss = ss) ∧
  run (App.logout req) us (delete (sid req) ss) = run (App.logout req) us ss ∧
  run (Part000.logout req) us (delete (sid req) ss) = run (Part000.logout req) us ss ∧
  (∀ reqs req' gates,
     Forall (λ r, sid r.2 ≠ sid req) reqs → sid req' = sid req →
     gates = [App.isLoggedIn] ∨ gates = [App.isLoggedIn; App.isAdmin] →
     gate_decision gates req'
       (serve reqs us (delete (sid req) ss)).1 (serve reqs us (delete (sid req) ss)).2
     = deny) ∧
  (∀ req' next, sid req' = sid req →
     run (Part000.isLoggedIn req' next) us (delete (sid req) ss)
     = (Val tt, mkSt us (delete (sid req) ss) [Redirect "/"]) ∧
     run (Part000.members req') us (delete (sid req) ss)
     = (Val tt, mkSt us (delete (sid req) ss) [Redirect "/"])).
Proof.
  split_and!; try reflexivity.
  - apply delete_id.
  - unfold App.logout. exec. by rewrite delete_delete_eq.
  - unfold Part000.logout. exec. by rewrite delete_delete_eq.
  - intros reqs req' gates Hother Hsame Hgates.
    assert ((serve reqs us (delete (sid req) ss)).2 !! sid req' = None) as Hgone.
    { rewrite Hsame, serve_other_sessions by done. apply lookup_delete_eq. }
    destruct Hgates as [->| ->].
    + by rewrite members_gate_decision, Hgone.
    + by rewrite admin_gate_decision, Hgone.
  - intros req' next Hsame. split.
    + unfold Part000.isLoggedIn. exec. by rewrite Hsame, lookup_delete_eq.
    + unfold Part000.members. exec. by rewrite Hsame, lookup_delete_eq.
Qed.

End logout.

(** ** The admin routes on the sample data *)

Lemma setRole_changes_role_only_witness :
  ∃ us',
    run (App.dispatch (H := toy) POST "/promote" promote_alice) [alice] admin_session
    = (Val tt, mkSt us' admin_session [Redirect "/admin"]) ∧
    us' !! 0%nat = Some (set_user_type "admin" alice) ∧
    password <$> us' = password <$> [alice].
Proof.
  destruct (setRole_changes_role_only (H := toy) promote_alice "alice@x.com" root
              [alice] admin_session eq_refl eq_refl eq_refl
              "/promote" "admin" (or_introl eq_refl))
    as (us' & Hrun & _ & _ & Hpw & Hdocs & _).
  exists us'. split_and!; [exact Hrun | | exact Hpw].
  destruct (Hdocs 0%nat alice eq_refl) as [Hsame|(_ & _ & Hnew)]; [|exact Hnew].
  exfalso.
  assert (users (run (App.dispatch (H := toy) POST "/promote" promote_alice)
                   [alice] admin_session).2 !! 0%nat
          = Some (set_user_type "admin" alice)) as Hc by (vm_compute; reflexivity).
  rewrite Hrun in Hc. simpl in Hc. rewrite Hsame in Hc. discriminate Hc.
Defined.

Lemma setRole_unknown_target_witness :
  ("nobody@x.com" ∉ email <$> [alice]) ∧
  run (App.dispatch (H := toy) POST "/promote" promote_nobody) [alice] admin_session
  = (Val tt, mkSt [alice] admin_session [Redirect "/admin"]) ∧
  run (App.dispatch (H := toy) POST "/demote" promote_nobody) [alice] admin_session
  = (Val tt, mkSt [alice] admin_session [Redirect "/admin"]).
Proof.
  assert ("nobody@x.com" ∉ email <$> [alice]) as Hnew.
  { simpl. intros Hin. apply list_elem_of_singleton in Hin. discriminate Hin. }
  split; [exact Hnew|].
  exact (setRole_unknown_target (H := toy) promote_nobody "nobody@x.com" root
           [alice] admin_session eq_refl eq_refl eq_refl Hnew).
Defined.

(** C6 as it is stated fails: a role change for an email of no document,
    by an admin session, is answered with the redirect to [/admin], and
    no call on [res] reports an error. *)
Lemma setRole_unknown_target_counterexample :
  ("nobody@x.com" ∉ email <$> [alice]) ∧
  gate_decision [App.isLoggedIn; App.isAdmin] promote_nobody [alice] admin_session = allow ∧
  sent (run (App.dispatch (H := toy) POST "/promote" promote_nobody)
          [alice] admin_session).2 = [Redirect "/admin"] ∧
  ¬ (∃ c, c ∈ sent (run (App.dispatch (H := toy) POST "/promote" promote_nobody)
                      [alice] admin_session).2 ∧ is_error c = true).
Proof.
  split_and!.
  - simpl. intros Hin. apply list_elem_of_singleton in Hin. discriminate Hin.
  - vm_compute. reflexivity.
  - vm_compute. reflexivity.
  - intros (c & Hc & Herr).
    assert (sent (run (App.dispatch (H := toy) POST "/promote" promote_nobody)
                    [alice] admin_session).2 = [Redirect "/admin"]) as Hsent
      by (vm_compute; reflexivity).
    rewrite Hsent in Hc. apply list_elem_of_singleton in Hc. subst c. discriminate Herr.
Qed.

Lemma admin_renders_whole_documents_witness :
  run (App.dispatch (H := toy) GET "/admin" admin_page) [alice] admin_session
  = (Val tt, mkSt [alice] admin_session
       [Render 200 "admin" [("user", VIdentity root); ("users", VUsers [alice])]]).
Proof.
  exact (proj1 (admin_renders_whole_documents (H := toy) admin_page root
                  [alice] admin_session eq_refl eq_refl)).
Defined.

(** * Further properties of the handlers *)

(** ** Lookups in a collection that grew *)

Lemma find_email_snoc e (us : list user) (u : user) :
  List.find (has_email e) us = None → email u = e →
  List.find (has_email e) (us ++ [u])%list = Some u.
Proof.
  intros Hf He. induction us as [|u0 us IH]; simpl in *.
  - by rewrite (proj2 (has_email_true e u) He).
  - destruct (has_email e u0); [done | auto].
Qed.

(** With pairwise distinct emails, the document found for an email is the
    one document that has it. *)
Lemma find_email_unique (us : list user) (u : user) :
  NoDup (email <$> us) → u ∈ us → List.find (has_email (email u)) us = Some u.
Proof.
  induction us as [|u0 us IH]; intros Hnd Hin; [by apply elem_of_nil in Hin|].
  simpl in *. apply NoDup_cons in Hnd as [Hfresh Hnd].
  apply elem_of_cons in Hin as [->|Hin].
  - by rewrite (proj2 (has_email_true _ _) eq_refl).
  - destruct (has_email (email u) u0) eqn:Hu0; [|auto].
    apply has_email_true in Hu0. exfalso. apply Hfresh. rewrite Hu0.
    apply list_elem_of_fmap. by exists u.
Qed.

Lemma is_suffix_app (a p : string) : is_suffix p (a +:+ p) = true.
Proof.
  induction a as [|c a IH].
  - change ("" +:+ p) with p. destruct p; cbn [is_suffix]; by case_decide.
  - change (String c a +:+ p) with (String c (a +:+ p)).
    cbn [is_suffix]. case_decide; [done | apply IH].
Qed.

Lemma toy_hash_verifies : hash_verifies (H := toy).
Proof.
  intros s p. simpl. unfold toy_compare, toy_hash.
  change ("$2b$10$" +:+ s +:+ "$" +:+ p) with (("$2b$10$" +:+ s) +:+ ("$" +:+ p)).
  apply is_suffix_app.
Qed.

(** ** Login, continued *)

Section login_more.
Context `{Library}.

(** The four ways [loginPost] of [app.js] ends. *)
Lemma App_loginPost_cases req us ss :
  (∃ err, validate App.login_schema (body req) = inl err ∧
     run (App.loginPost req) us ss = (Val tt, mkSt us ss [Send 400 (Details err)])) ∨
  (∃ v, validate App.login_schema (body req) = inr v ∧
     List.find (has_email (v !!! "email")) us = None ∧
     run (App.loginPost req) us ss
     = (Throw (TypeError "Cannot read properties of null"),
        mkSt us ss [invalid_credentials_app])) ∨
  (∃ v u, validate App.login_schema (body req) = inr v ∧
     List.find (has_email (v !!! "email")) us = Some u ∧
     bcrypt_compare (v !!! "password") (password u) = false ∧
     run (App.loginPost req) us ss
     = (Val tt, mkSt us (<[sid req := identity_of u]> ss)
                  [invalid_credentials_app; Redirect "/"])) ∨
  (∃ v u, validate App.login_schema (body req) = inr v ∧
     List.find (has_email (v !!! "email")) us = Some u ∧
     bcrypt_compare (v !!! "password") (password u) = true ∧
     run (App.loginPost req) us ss
     = (Val tt, mkSt us (<[sid req := identity_of u]> ss) [Redirect "/"])).
Proof.
  destruct (validate App.login_schema (body req)) as [err|v] eqn:Hv.
  { left. exists err. split; [done|]. by apply App_loginPost_invalid. }
  destruct (List.find (has_email (v !!! "email")) us) as [u|] eqn:Hf.
  - destruct (bcrypt_compare (v !!! "password") (password u)) eqn:Hc.
    + do 3 right. exists v, u. split_and!; try done. by eapply App_loginPost_success.
    + do 2 right; left. exists v, u. split_and!; try done.
      by eapply App_loginPost_wrong_password.
  - right; left. exists v. split_and!; try done. by eapply App_loginPost_unknown_email.
Qed.

(** X1.  Registering and then logging in with the same email and password
    succeeds, in both files, and the login writes the very identity the
    registration wrote, provided the hasher verifies its own hashes. *)
Theorem signup_then_login req req' v' us ss :
  hash_verifies →
  validate App.login_schema (body req') = inr v' →
  body req' !! "email" = body req !! "email" →
  body req' !! "password" = body req !! "password" →
  (registered (run (App.signupPost req) us ss) →
   ∃ us1 ss1 i,
     run (App.signupPost req) us ss = (Val tt, mkSt us1 ss1 [Redirect "/members"]) ∧
     ss1 !! sid req = Some i ∧
     run (App.loginPost req') us1 ss1 = (Val tt, mkSt us1 (<[sid req' := i]> ss1) [Redirect "/"])) ∧
  (registered (run (Part000.signupPost req) us ss) →
   ∃ us1 ss1 i,
     run (Part000.signupPost req) us ss = (Val tt, mkSt us1 ss1 [Redirect "/members"]) ∧
     ss1 !! sid req = Some i ∧
     run (Part000.loginPost req') us1 ss1
     = (Val tt, mkSt us1 (<[sid req' := i]> ss1) [Redirect "/"])).
Proof.
  intros Hhash Hv' Hemail Hpw.
  destruct (login_valid _ _ Hv') as (e' & p' & He' & Hp' & _ & _ & Hle & Hlp).
  split; intros [_ Hsent].
  - destruct (App_signupPost_cases req us ss)
      as [(? & _ & Hr)|[(? & ? & _ & _ & Hr)|(v & Hv & Hf & Hr)]];
      rewrite Hr in Hsent; try done.
    destruct (App_signup_valid _ _ Hv)
      as (n & e & p & _ & He & Hp & _ & _ & _ & _ & Hn1 & He1 & Hp1).
    rewrite He, He' in Hemail. rewrite Hp, Hp' in Hpw.
    injection Hemail as ->. injection Hpw as ->.
    eexists _, _, _. split; [exact Hr|]. split; [apply lookup_insert_eq|].
    set (newUser := mkUser (v !!! "name") (v !!! "email")
                      (bcrypt_hash (salt req) (v !!! "password")) (Some "user")).
    assert (List.find (has_email (v' !!! "email")) (us ++ [newUser])%list = Some newUser)
      as Hf' by (rewrite Hle, <- He1; by apply find_email_snoc).
    assert (bcrypt_compare (v' !!! "password") (password newUser) = true)
      as Hc by (simpl; rewrite Hlp, Hp1; apply Hhash).
    by rewrite (App_loginPost_success req' v' newUser _ _ Hv' Hf' Hc).
  - destruct (Part000_signupPost_cases req us ss)
      as [(? & _ & Hr)|[(? & ? & _ & _ & Hr)|(v & Hv & Hf & Hr)]];
      rewrite Hr in Hsent; try done.
    destruct (Part000_signup_valid _ _ Hv)
      as (n & e & p & _ & He & Hp & _ & _ & _ & _ & _ & Hn1 & He1 & Hp1).
    rewrite He, He' in Hemail. rewrite Hp, Hp' in Hpw.
    injection Hemail as ->. injection Hpw as ->.
    eexists _, _, _. split; [exact Hr|]. split; [apply lookup_insert_eq|].
    set (newUser := mkUser (v !!! "name") (v !!! "email")
                      (bcrypt_hash (salt req) (v !!! "password")) None).
    assert (List.find (has_email (v' !!! "email")) (us ++ [newUser])%list = Some newUser)
      as Hf' by (rewrite Hle, <- He1; by apply find_email_snoc).
    assert (bcrypt_compare (v' !!! "password") (password newUser) = true)
      as Hc by (simpl; rewrite Hlp, Hp1; apply Hhash).
    by rewrite (Part000_loginPost_success req' v' newUser _ _ Hv' Hf' Hc).
Qed.


(** X3.  [loginPost] of either file answers a body that does not pass the
    login schema (a missing, empty or non-string email or password, an
    email the validator refuses) with status 400 and looks at no
    document: both stores are as they were. *)
Theorem loginPost_rejects_malformed req us ss :
  ¬ login_fields (body req) →
  (∃ err, run (App.loginPost req) us ss
          = (Val tt, mkSt us ss [Send 400 (Details err)])) ∧
  (∃ err, run (Part000.loginPost req) us ss
          = (Val tt, mkSt us ss [Send 400 (Details err)])).
Proof.
  intros Hbad.
  assert (∃ err, validate App.login_schema (body req) = inl err) as [err Hv].
  { destruct (validate App.login_schema (body req)) as [err|v] eqn:Hv; [by exists err|].
    exfalso. apply Hbad. destruct (login_valid _ _ Hv) as (e & p & ? & ? & ? & ? & _).
    by exists e, p. }
  split; exists err.
  - by apply App_loginPost_invalid.
  - by apply Part000_loginPost_invalid.
Qed.

(** X4.  When emails are pairwise distinct, a login with the email of a
    document and a password its hash verifies succeeds with that document:
    [app.js] writes its name, email and role to the session, the other
    file its name and email. *)
Theorem loginPost_finds_the_document req v u us ss :
  NoDup (email <$> us) → u ∈ us →
  validate App.login_schema (body req) = inr v →
  v !!! "email" = email u →
  bcrypt_compare (v !!! "password") (password u) = true →
  run (App.loginPost req) us ss
  = (Val tt, mkSt us (<[sid req := identity_of u]> ss) [Redirect "/"]) ∧
  run (Part000.loginPost req) us ss
  = (Val tt, mkSt us (<[sid req := mkIdentity (name u) (email u) None]> ss) [Redirect "/"]).
Proof.
  intros Hnd Hin Hv He Hc.
  pose proof (find_email_unique us u Hnd Hin) as Hf. rewrite <- He in Hf.
  split.
  - by apply (App_loginPost_success req v u).
  - by apply (Part000_loginPost_success req v u).
Qed.

End login_more.

(** ** What a request can do *)

Section effects.
Context `{Library}.

(** The handler a request is routed to, gates included. *)
Lemma App_dispatch_cases m path req :
  App.dispatch m path req ∈
    [ App.home req; App.signup req; App.signupPost req; App.login req;
      App.loginPost req; App.logout req;
      App.chain [App.isLoggedIn] req (App.members req);
      App.chain [App.isLoggedIn; App.isAdmin] req (App.admin req);
      App.chain [App.isLoggedIn; App.isAdmin] req (App.promote req);
      App.chain [App.isLoggedIn; App.isAdmin] req (App.demote req);
      App.error404 req ].
Proof.
  unfold App.dispatch, App.routes. cbn [List.find fst snd].
  repeat (case_bool_decide;
          [repeat first [apply list_elem_of_here | apply list_elem_of_further]|]).
  repeat first [apply list_elem_of_here | apply list_elem_of_further].
Qed.

Lemma Part000_dispatch_cases m path req :
  Part000.dispatch m path req ∈
    [ Part000.home req; Part000.homePost req; Part000.signup req;
      Part000.signupPost req; Part000.login req; Part000.loginPost req;
      Part000.logout req; Part000.members req; Part000.error404 req ].
Proof.
  unfold Part000.dispatch, Part000.routes. cbn [List.find fst snd].
  repeat (case_bool_decide;
          [repeat first [apply list_elem_of_here | apply list_elem_of_further]|]).
  repeat first [apply list_elem_of_here | apply list_elem_of_further].
Qed.

(** The handlers that only read. *)
Lemma App_readers_keep req h us ss :
  h ∈ [App.home req; App.signup req; App.login req; App.members req;
       App.admin req; App.error404 req] →
  users (run h us ss).2 = us ∧ sessions (run h us ss).2 = ss.
Proof.
  intros Hh. repeat (apply elem_of_cons in Hh as [->|Hh]);
    [unfold App.home | unfold App.signup | unfold App.login | unfold App.members
    | unfold App.admin | unfold App.error404 | by apply elem_of_nil in Hh];
    exec; by destruct (ss !! sid req).
Qed.

Lemma Part000_readers_keep req h us ss :
  h ∈ [Part000.home req; Part000.homePost req; Part000.signup req; Part000.login req;
       Part000.members req; Part000.error404 req] →
  users (run h us ss).2 = us ∧ sessions (run h us ss).2 = ss.
Proof.
  intros Hh. repeat (apply elem_of_cons in Hh as [->|Hh]);
    [unfold Part000.home | unfold Part000.homePost | unfold Part000.signup
    | unfold Part000.login | unfold Part000.members | unfold Part000.error404
    | by apply elem_of_nil in Hh];
    exec; by destruct (ss !! sid req).
Qed.

Lemma App_signupPost_effect req us ss :
  effect req us ss (users (run (App.signupPost req) us ss).2)
                   (sessions (run (App.signupPost req) us ss).2).
Proof.
  destruct (App_signupPost_cases req us ss)
    as [(? & _ & ->)|[(? & ? & _ & _ & ->)|(v & _ & Hf & ->)]]; simpl;
    try apply effect_none.
  exact (effect_signup req us ss
           (mkUser (v !!! "name") (v !!! "email")
              (bcrypt_hash (salt req) (v !!! "password")) (Some "user"))
           (proj1 (find_email_None _ _) Hf) eq_refl).
Qed.

Lemma App_loginPost_effect req us ss :
  effect req us ss (users (run (App.loginPost req) us ss).2)
                   (sessions (run (App.loginPost req) us ss).2).
Proof.
  destruct (App_loginPost_cases req us ss)
    as [(? & _ & ->)|[(? & _ & _ & ->)|[(v & u & _ & Hf & _ & ->)|(v & u & _ & Hf & _ & ->)]]];
    simpl; try apply effect_none;
    apply effect_login; by apply find_email_Some in Hf as [? _].
Qed.

Lemma admin_gates_effect req h us ss :
  (∀ actor, ss !! sid req = Some actor → sess_user_type actor = Some "admin" →
     effect req us ss (users (run h us ss).2) (sessions (run h us ss).2)) →
  effect req us ss
    (users (run (App.chain [App.isLoggedIn; App.isAdmin] req h) us ss).2)
    (sessions (run (App.chain [App.isLoggedIn; App.isAdmin] req h) us ss).2).
Proof.
  intros Hh. rewrite admin_gates. destruct (ss !! sid req) as [actor|] eqn:Hs.
  - case_decide; [by eapply Hh | apply effect_none].
  - apply effect_none.
Qed.

Lemma App_dispatch_effect m path req us ss :
  effect req us ss (users (run (App.dispatch m path req) us ss).2)
                   (sessions (run (App.dispatch m path req) us ss).2).
Proof.
  assert (∀ h, h ∈ [App.home req; App.signup req; App.login req; App.members req;
                    App.admin req; App.error404 req] →
               effect req us ss (users (run h us ss).2) (sessions (run h us ss).2)) as Hread.
  { intros h Hh. destruct (App_readers_keep req h us ss Hh) as [-> ->]. apply effect_none. }
  pose proof (App_dispatch_cases m path req) as Hc.
  repeat (apply elem_of_cons in Hc as [->|Hc]).
  - apply Hread. set_solver.
  - apply Hread. set_solver.
  - apply App_signupPost_effect.
  - apply Hread. set_solver.
  - apply App_loginPost_effect.
  - apply effect_logout.
  - rewrite members_gate. destruct (ss !! sid req); [|apply effect_none].
    apply Hread. set_solver.
  - apply admin_gates_effect. intros actor Hs _. apply Hread. set_solver.
  - apply admin_gates_effect. intros actor Hs Hr. rewrite promote_run. simpl.
    apply (effect_role req us ss actor); auto.
  - apply admin_gates_effect. intros actor Hs Hr. rewrite demote_run. simpl.
    apply (effect_role req us ss actor); auto.
  - apply Hread. set_solver.
  - by apply elem_of_nil in Hc.
Qed.

Lemma Part000_signupPost_effect req us ss :
  Part000_effect req us ss (users (run (Part000.signupPost req) us ss).2)
                           (sessions (run (Part000.signupPost req) us ss).2).
Proof.
  destruct (Part000_signupPost_cases req us ss)
    as [(? & _ & ->)|[(? & ? & _ & _ & ->)|(v & _ & Hf & ->)]]; simpl;
    try apply Part000_effect_none.
  exact (Part000_effect_signup req us ss
           (mkUser (v !!! "name") (v !!! "email")
              (bcrypt_hash (salt req) (v !!! "password")) None)
           (proj1 (find_email_None _ _) Hf) eq_refl).
Qed.

Lemma Part000_loginPost_effect req us ss :
  Part000_effect req us ss (users (run (Part000.loginPost req) us ss).2)
                           (sessions (run (Part000.loginPost req) us ss).2).
Proof.
  destruct (validate Part000.login_schema (body req)) as [err|v] eqn:Hv.
  { rewrite (Part000_loginPost_invalid _ _ _ _ Hv). apply Part000_effect_none. }
  pose proof (Part000_loginPost_authenticates req v us ss Hv) as Hrun.
  destruct (List.find (has_email (v !!! "email")) us) as [u|] eqn:Hf.
  - destruct (bcrypt_compare (v !!! "password") (password u)); rewrite Hrun; simpl.
    + apply Part000_effect_login. by apply find_email_Some in Hf as [? _].
    + apply Part000_effect_none.
  - rewrite Hrun. apply Part000_effect_none.
Qed.

Lemma Part000_dispatch_effect m path req us ss :
  Part000_effect req us ss (users (run (Part000.dispatch m path req) us ss).2)
                           (sessions (run (Part000.dispatch m path req) us ss).2).
Proof.
  assert (∀ h, h ∈ [Part000.home req; Part000.homePost req; Part000.signup req;
                    Part000.login req; Part000.members req; Part000.error404 req] →
               Part000_effect req us ss (users (run h us ss).2) (sessions (run h us ss).2))
    as Hread.
  { intros h Hh. destruct (Part000_readers_keep req h us ss Hh) as [-> ->].
    apply Part000_effect_none. }
  pose proof (Part000_dispatch_cases m path req) as Hc.
  repeat (apply elem_of_cons in Hc as [->|Hc]).
  - apply Hread. set_solver.
  - apply Hread. set_solver.
  - apply Hread. set_solver.
  - apply Part000_signupPost_effect.
  - apply Hread. set_solver.
  - apply Part000_loginPost_effect.
  - apply Part000_effect_logout.
  - apply Hread. set_solver.
  - apply Hread. set_solver.
  - by apply elem_of_nil in Hc.
Qed.

End effects.

(** ** Sequences of requests *)

Section sequences.
Context `{Library}.

Lemma serve_preserves (I : list user → gmap string identity → Prop) :
  (∀ req us ss us' ss', I us ss → effect req us ss us' ss' → I us' ss') →
  ∀ reqs us ss, I us ss → I (serve reqs us ss).1 (serve reqs us ss).2.
Proof.
  intros Hstep reqs. induction reqs as [|[[m path] req] reqs IH]; intros us ss HI; [done|].
  simpl. apply IH. eapply Hstep; [done|]. apply App_dispatch_effect.
Qed.

Lemma Part000_serve_preserves (I : list user → gmap string identity → Prop) :
  (∀ req us ss us' ss', I us ss → Part000_effect req us ss us' ss' → I us' ss') →
  ∀ reqs us ss, I us ss → I (Part000_serve reqs us ss).1 (Part000_serve reqs us ss).2.
Proof.
  intros Hstep reqs. induction reqs as [|[[m path] req] reqs IH]; intros us ss HI; [done|].
  simpl. apply IH. eapply Hstep; [done|]. apply Part000_dispatch_effect.
Qed.

Lemma email_filter_set_user_type q r u :
  email_filter q (set_user_type r u) = email_filter q u.
Proof. by destruct q as [[?|?]|]. Qed.

Lemma update_first_without_role p r us :
  without_role <$> update_first p (set_user_type r) us = without_role <$> us.
Proof. induction us as [|u us IH]; simpl; [done|]. destruct (p u); simpl; by f_equal. Qed.

(** The last role change for a filter is the one that counts. *)
Lemma update_first_twice q r1 r2 us :
  update_first (email_filter q) (set_user_type r2)
    (update_first (email_filter q) (set_user_type r1) us)
  = update_first (email_filter q) (set_user_type r2) us.
Proof.
  induction us as [|u us IH]; simpl; [done|].
  destruct (email_filter q u) eqn:Hu; simpl.
  - by rewrite email_filter_set_user_type, Hu.
  - by rewrite Hu, IH.
Qed.

Lemma effect_no_admin req us ss us' ss' :
  no_admin us ss → effect req us ss us' ss' → no_admin us' ss'.
Proof.
  intros [Hus Hss] Heff. destruct Heff as [|u Hfresh Hrole|u Hin| |actor q r Hs Hr _].
  - done.
  - split.
    + apply Forall_app. split; [done|]. apply Forall_singleton. by rewrite Hrole.
    + apply map_Forall_insert_2; [|done]. simpl. by rewrite Hrole.
  - split; [done|]. apply map_Forall_insert_2; [|done]. simpl.
    by apply (proj1 (Forall_forall _ _) Hus).
  - split; [done|]. by apply map_Forall_delete.
  - exfalso. by apply (Hss _ _ Hs).
Qed.

Lemma effect_emails_unique req us ss us' ss' :
  NoDup (email <$> us) → effect req us ss us' ss' → NoDup (email <$> us').
Proof.
  intros Hnd Heff. destruct Heff as [|u Hfresh _|u _| |actor q r _ _ _]; try done.
  - by apply NoDup_emails_snoc.
  - by rewrite update_first_emails.
Qed.

Lemma effect_keeps_documents pre req us ss us' ss' :
  pre `prefix_of` without_role <$> us → effect req us ss us' ss' →
  pre `prefix_of` without_role <$> us'.
Proof.
  intros Hpre Heff. destruct Heff as [|u _ _|u _| |actor q r _ _ _]; try done.
  - rewrite fmap_app. by apply prefix_app_r.
  - by rewrite update_first_without_role.
Qed.

Lemma effect_other_sessions req us ss us' ss' k :
  k ≠ sid req → effect req us ss us' ss' → ss' !! k = ss !! k.
Proof.
  intros Hk Heff. destruct Heff as [|u _ _|u _| |actor q r _ _ _]; try done.
  - by rewrite lookup_insert_ne.
  - by rewrite lookup_insert_ne.
  - by rewrite lookup_delete_ne.
Qed.

Lemma Part000_effect_emails_unique req us ss us' ss' :
  NoDup (email <$> us) → Part000_effect req us ss us' ss' → NoDup (email <$> us').
Proof.
  intros Hnd Heff. destruct Heff as [|u Hfresh _|u _|]; try done.
  by apply NoDup_emails_snoc.
Qed.

Lemma Part000_effect_grows pre req us ss us' ss' :
  pre `prefix_of` us → Part000_effect req us ss us' ss' → pre `prefix_of` us'.
Proof.
  intros Hpre Heff. destruct Heff as [|u _ _|u _|]; try done. by apply prefix_app_r.
Qed.

Lemma Part000_effect_other_sessions req us ss us' ss' k :
  k ≠ sid req → Part000_effect req us ss us' ss' → ss' !! k = ss !! k.
Proof.
  intros Hk Heff. destruct Heff as [|u _ _|u _|]; try done.
  - by rewrite lookup_insert_ne.
  - by rewrite lookup_insert_ne.
  - by rewrite lookup_delete_ne.
Qed.

(** X5.  Whatever the method, the path and the body, a request does one
    of a few things to the stores.  With [app.js]: nothing; append one
    document of role [user] with a new email and write its identity to the
    session of the request; write the identity of an existing document to
    the session of the request; remove the session of the request; or,
    coming with a session of role [admin], set the role of the first
    document its filter selects to [admin] or [user].  With the file
    without roles: the first four, with no role in document and session. *)
Theorem request_effects m path req us ss :
  effect req us ss (users (run (App.dispatch m path req) us ss).2)
                   (sessions (run (App.dispatch m path req) us ss).2) ∧
  Part000_effect req us ss (users (run (Part000.dispatch m path req) us ss).2)
                           (sessions (run (Part000.dispatch m path req) us ss).2).
Proof.
  split.
  - apply App_dispatch_effect.
  - apply Part000_dispatch_effect.
Qed.

(** X6.  If no document and no session has the role [admin], no sequence
    of requests to [app.js] gives any document or session that role. *)
Theorem serve_no_admin reqs us ss :
  no_admin us ss → no_admin (serve reqs us ss).1 (serve reqs us ss).2.
Proof.
  intros Hno. apply (serve_preserves no_admin); [|done].
  intros req us0 ss0 us' ss' H0 Heff. by eapply effect_no_admin.
Qed.

(** X7.  Emails that are pairwise distinct stay so under every sequence of
    requests, to either file. *)
Theorem serve_emails_unique reqs us ss :
  NoDup (email <$> us) →
  NoDup (email <$> (serve reqs us ss).1) ∧
  NoDup (email <$> (Part000_serve reqs us ss).1).
Proof.
  intros Hnd. split.
  - apply (serve_preserves (λ us _, NoDup (email <$> us))); [|done].
    intros req us0 ss0 us' ss' H0 Heff. by eapply effect_emails_unique.
  - apply (Part000_serve_preserves (λ us _, NoDup (email <$> us))); [|done].
    intros req us0 ss0 us' ss' H0 Heff. by eapply Part000_effect_emails_unique.
Qed.

(** X8.  No sequence of requests removes or reorders a document or
    changes its name, email or password hash: the collection after it
    begins with the documents it had, up to their roles with [app.js],
    and unchanged with the file without roles. *)
Theorem serve_keeps_documents reqs us ss :
  without_role <$> us `prefix_of` without_role <$> (serve reqs us ss).1 ∧
  us `prefix_of` (Part000_serve reqs us ss).1.
Proof.
  split.
  - apply (serve_preserves (λ us' _, without_role <$> us `prefix_of` without_role <$> us'));
      [|done].
    intros req us0 ss0 us' ss' H0 Heff. by eapply effect_keeps_documents.
  - apply (Part000_serve_preserves (λ us' _, us `prefix_of` us')); [|done].
    intros req us0 ss0 us' ss' H0 Heff. by eapply Part000_effect_grows.
Qed.

(** X9.  A request writes to the session under its own session id only:
    every other entry of the session store is after the request what
    it was before, with either file and on every route. *)
Theorem dispatch_own_session_only m path req us ss k :
  k ≠ sid req →
  sessions (run (App.dispatch m path req) us ss).2 !! k = ss !! k ∧
  sessions (run (Part000.dispatch m path req) us ss).2 !! k = ss !! k.
Proof.
  intros Hk. split.
  - eapply effect_other_sessions; [done | apply App_dispatch_effect].
  - eapply Part000_effect_other_sessions; [done | apply Part000_dispatch_effect].
Qed.

End sequences.

(** ** Routes *)

Section routes_more.
Context `{Library}.

(** X10.  On the three admin routes a request without a session is sent
    to [/login], and a request whose session has another role than
    [admin] gets the 403 view; in both cases the handler behind the gates
    does not run, so no document and no session changes. *)
Theorem admin_routes_refuse m path req us ss :
  (m, path) ∈ [(GET, "/admin"); (POST, "/promote"); (POST, "/demote")] →
  match ss !! sid req with
  | None =>
      run (App.dispatch m path req) us ss = (Val tt, mkSt us ss [Redirect "/login"])
  | Some u =>
      sess_user_type u ≠ Some "admin" →
      run (App.dispatch m path req) us ss
      = (Val tt, mkSt us ss [Render 403 "403" [("user", VIdentity u)]])
  end.
Proof.
  intros Hroute.
  assert (∃ h, App.dispatch m path req
               = App.chain [App.isLoggedIn; App.isAdmin] req h) as [h ->].
  { repeat (apply elem_of_cons in Hroute as [[= -> ->]|Hroute]);
      [by eexists | by eexists | by eexists | by apply elem_of_nil in Hroute]. }
  rewrite admin_gates. destruct (ss !! sid req) as [u|]; [|done].
  intros Hrole. by rewrite decide_False.
Qed.


(** X12.  Of two role changes with the same body the second is the one
    that counts: promoting twice is promoting once, demoting after
    promoting is demoting, and promoting after demoting is promoting. *)
Theorem role_changes_compose req us ss :
  let after h us := users (run (h req) us ss).2 in
  after App.promote (after App.promote us) = after App.promote us ∧
  after App.demote (after App.promote us) = after App.demote us ∧
  after App.promote (after App.demote us) = after App.promote us ∧
  after App.demote (after App.demote us) = after App.demote us.
Proof.
  intros after. unfold after. rewrite !promote_run, !demote_run. simpl.
  split_and!; apply update_first_twice.
Qed.


(** X14.  The members page.  Through its route [app.js] renders it, with
    the three images, for a request that has a session, and sends every
    other request to [/login]: the redirect to [/] inside [members] is
    never reached.  The other file has no gate on the route: it renders
    the page with one of the three images, or redirects to [/]. *)
Theorem members_route req us ss :
  run (App.dispatch GET "/members" req) us ss
  = (Val tt, mkSt us ss
       [match ss !! sid req with
        | Some u =>
            Render 200 "members"
              [("user", VIdentity u); ("images", VStrs ["cat1.jpg"; "cat2.jpg"; "cat3.jpg"])]
        | None => Redirect "/login"
        end]) ∧
  ∃ img, img ∈ Part000.images ∧
    run (Part000.dispatch GET "/members" req) us ss
    = (Val tt, mkSt us ss
         [match ss !! sid req with
          | Some u =>
              Render 200 "members" [("user", VIdentity u); ("randomImage", VStr img)]
          | None => Redirect "/"
          end]).
Proof.
  split.
  - destruct (route_gates req) as (-> & _). rewrite members_gate.
    unfold App.members. exec. by destruct (ss !! sid req).
  - assert (is_Some (Part000.images !! (random req `mod` length Part000.images)%nat))
      as [img Himg].
    { apply lookup_lt_is_Some. apply Nat.mod_upper_bound. done. }
    exists img. split; [by eapply list_elem_of_lookup_2|].
    change (Part000.dispatch GET "/members" req) with (Part000.members req).
    unfold Part000.members. cbv zeta. rewrite Himg. exec. by destruct (ss !! sid req).
Qed.

(** X15.  A session outlives a demotion.  After an admin demotes the
    account of an email, the document found for that email has the role
    [user], and a session that was given the role [admin] before still
    passes the gates of the admin routes. *)
Theorem demoted_session_keeps_access req e actor req' old u us ss :
  ss !! sid req = Some actor → sess_user_type actor = Some "admin" →
  body req !! "email" = Some (BStr e) →
  List.find (has_email e) us = Some u →
  ss !! sid req' = Some old → sess_email old = e → sess_user_type old = Some "admin" →
  ∃ us',
    run (App.dispatch POST "/demote" req) us ss = (Val tt, mkSt us' ss [Redirect "/admin"]) ∧
    List.find (has_email e) us' = Some (set_user_type "user" u) ∧
    gate_decision [App.isLoggedIn; App.isAdmin] req' us' ss = allow.
Proof.
  intros Hs Hr He Hf Hs' _ Hr'.
  exists (update_first (has_email e) (set_user_type "user") us). split_and!.
  - by eapply demote_by_admin.
  - by apply find_update_first.
  - rewrite admin_gate_decision, Hs'. simpl. by rewrite decide_True.
Qed.

(** X16.  In the file without roles a wrong password for a registered
    email and any password for an email nobody registered give the same
    run: the one failure view, no exception, both stores as they were. *)
Theorem Part000_login_failures_indistinguishable req1 req2 v1 v2 u us ss :
  validate Part000.login_schema (body req1) = inr v1 →
  validate Part000.login_schema (body req2) = inr v2 →
  u ∈ us → email u = v1 !!! "email" → NoDup (email <$> us) →
  bcrypt_compare (v1 !!! "password") (password u) = false →
  v2 !!! "email" ∉ email <$> us →
  run (Part000.loginPost req1) us ss = run (Part000.loginPost req2) us ss ∧
  run (Part000.loginPost req1) us ss = (Val tt, mkSt us ss [invalid_credentials_part000]).
Proof.
  intros Hv1 Hv2 Hin He Hnd Hc Hnew.
  pose proof (find_email_unique us u Hnd Hin) as Hf. rewrite He in Hf.
  apply find_email_None in Hnew.
  rewrite (Part000_loginPost_wrong_password req1 v1 u us ss Hv1 Hf Hc).
  by rewrite (Part000_loginPost_unknown_email req2 v2 us ss Hv2 Hnew).
Qed.

(** X17.  [promote] and [demote] take the email from the body as it is.
    When the body has no email the filter selects no document: a request
    of an admin session changes nothing and is still answered with the
    redirect to [/admin]. *)
Theorem promote_without_email req actor us ss :
  ss !! sid req = Some actor → sess_user_type actor = Some "admin" →
  body req !! "email" = None →
  run (App.dispatch POST "/promote" req) us ss = (Val tt, mkSt us ss [Redirect "/admin"]) ∧
  run (App.dispatch POST "/demote" req) us ss = (Val tt, mkSt us ss [Redirect "/admin"]).
Proof.
  intros Hs Hr He.
  assert (∀ r, update_first (email_filter None) (set_user_type r) us = us) as Hsame.
  { intros r. apply update_first_none. by apply Forall_forall. }
  destruct (route_gates req) as (_ & _ & -> & ->).
  rewrite !admin_gates, Hs. rewrite !decide_True by done.
  rewrite promote_run, demote_run, He, !Hsame. done.
Qed.

End routes_more.

(** ** The further properties on the sample data *)

Lemma signup_then_login_witness :
  ∃ us1 ss1 i,
    run (App.signupPost (H := toy) register_bob) [alice] ∅
    = (Val tt, mkSt us1 ss1 [Redirect "/members"]) ∧
    ss1 !! sid register_bob = Some i ∧
    run (App.loginPost (H := toy) login_bob) us1 ss1
    = (Val tt, mkSt us1 (<[sid login_bob := i]> ss1) [Redirect "/"]).
Proof.
  assert (validate (H := toy) App.login_schema (body login_bob)
          = inr (<["email" := "bob@x.com"]> (<["password" := "secret2"]> ∅))) as Hv
    by (vm_compute; reflexivity).
  assert (registered (run (App.signupPost (H := toy) register_bob) [alice] ∅)) as Hreg
    by (split; vm_compute; reflexivity).
  exact (proj1 (signup_then_login (H := toy) register_bob login_bob _ [alice] ∅
                  toy_hash_verifies Hv eq_refl eq_refl) Hreg).
Defined.

Lemma loginPost_rejects_malformed_witness :
  (∃ err, run (App.loginPost (H := toy) login_no_password) [alice] ∅
          = (Val tt, mkSt [alice] ∅ [Send 400 (Details err)])) ∧
  (∃ err, run (Part000.loginPost (H := toy) login_no_password) [alice] ∅
          = (Val tt, mkSt [alice] ∅ [Send 400 (Details err)])).
Proof.
  apply (loginPost_rejects_malformed (H := toy)).
  intros (e & p & _ & Hp & _). vm_compute in Hp. discriminate Hp.
Defined.

Lemma loginPost_finds_the_document_witness :
  run (App.loginPost (H := toy) login_alice) [alice] ∅
  = (Val tt, mkSt [alice] (<[sid login_alice := identity_of alice]> ∅) [Redirect "/"]) ∧
  run (Part000.loginPost (H := toy) login_alice) [alice] ∅
  = (Val tt, mkSt [alice]
       (<[sid login_alice := mkIdentity (name alice) (email alice) None]> ∅) [Redirect "/"]).
Proof.
  assert (validate (H := toy) App.login_schema (body login_alice)
          = inr (<["email" := "alice@x.com"]> (<["password" := "secret1"]> ∅))) as Hv
    by (vm_compute; reflexivity).
  apply (loginPost_finds_the_document (H := toy) login_alice
           (<["email" := "alice@x.com"]> (<["password" := "secret1"]> ∅)) alice [alice] ∅);
    [ simpl; apply NoDup_singleton | apply list_elem_of_here | exact Hv
    | vm_compute; reflexivity | vm_compute; reflexivity ].
Defined.

Lemma no_admin_alice : no_admin [alice] ∅.
Proof.
  split; [|apply map_Forall_empty]. apply Forall_singleton. discriminate.
Qed.

Lemma serve_no_admin_witness :
  no_admin (serve (H := toy) three_requests [alice] ∅).1
           (serve (H := toy) three_requests [alice] ∅).2.
Proof. exact (serve_no_admin (H := toy) three_requests [alice] ∅ no_admin_alice). Defined.

Lemma serve_emails_unique_witness :
  NoDup (email <$> (serve (H := toy) three_requests [alice] ∅).1) ∧
  NoDup (email <$> (Part000_serve (H := toy) three_requests [alice] ∅).1).
Proof.
  apply (serve_emails_unique (H := toy) three_requests [alice] ∅).
  simpl. apply NoDup_singleton.
Defined.

Lemma dispatch_own_session_only_witness :
  sessions (run (App.dispatch (H := toy) GET "/logout" as_alice) [alice]
              two_admin_sessions).2 !! "sid-root" = two_admin_sessions !! "sid-root" ∧
  sessions (run (Part000.dispatch (H := toy) GET "/logout" as_alice) [alice]
              two_admin_sessions).2 !! "sid-root" = two_admin_sessions !! "sid-root".
Proof.
  apply (dispatch_own_session_only (H := toy) GET "/logout" as_alice [alice]
           two_admin_sessions "sid-root").
  discriminate.
Defined.

Lemma admin_routes_refuse_witness :
  run (App.dispatch (H := toy) POST "/promote" promote_alice) [alice] user_session
  = (Val tt, mkSt [alice] user_session [Render 403 "403" [("user", VIdentity bob_session)]]).
Proof.
  assert ((POST, "/promote") ∈ [(GET, "/admin"); (POST, "/promote"); (POST, "/demote")])
    as Hin by (apply list_elem_of_further, list_elem_of_here).
  assert (sess_user_type bob_session ≠ Some "admin") as Hrole by discriminate.
  exact (admin_routes_refuse (H := toy) POST "/promote" promote_alice [alice] user_session
           Hin Hrole).
Defined.


Lemma demoted_session_keeps_access_witness :
  ∃ us',
    run (App.dispatch (H := toy) POST "/demote" demote_alice)
      [set_user_type "admin" alice] two_admin_sessions
    = (Val tt, mkSt us' two_admin_sessions [Redirect "/admin"]) ∧
    List.find (has_email "alice@x.com") us'
    = Some (set_user_type "user" (set_user_type "admin" alice)) ∧
    gate_decision [App.isLoggedIn; App.isAdmin] as_alice us' two_admin_sessions = allow.
Proof.
  exact (demoted_session_keeps_access (H := toy) demote_alice "alice@x.com" root as_alice
           alice_admin_session (set_user_type "admin" alice)
           [set_user_type "admin" alice] two_admin_sessions
           eq_refl eq_refl eq_refl eq_refl eq_refl eq_refl eq_refl).
Defined.

Lemma Part000_login_failures_indistinguishable_witness :
  run (Part000.loginPost (H := toy) login_alice_wrong) [alice] ∅
  = run (Part000.loginPost (H := toy) login_nobody) [alice] ∅ ∧
  run (Part000.loginPost (H := toy) login_alice_wrong) [alice] ∅
  = (Val tt, mkSt [alice] ∅ [invalid_credentials_part000]).
Proof.
  assert (validate (H := toy) Part000.login_schema (body login_alice_wrong)
          = inr (<["email" := "alice@x.com"]> (<["password" := "wrong"]> ∅))) as Hv1
    by (vm_compute; reflexivity).
  assert (validate (H := toy) Part000.login_schema (body login_nobody)
          = inr (<["email" := "nobody@x.com"]> (<["password" := "wrong"]> ∅))) as Hv2
    by (vm_compute; reflexivity).
  apply (Part000_login_failures_indistinguishable (H := toy) login_alice_wrong login_nobody
           (<["email" := "alice@x.com"]> (<["password" := "wrong"]> ∅))
           (<["email" := "nobody@x.com"]> (<["password" := "wrong"]> ∅))
           alice [alice] ∅ Hv1 Hv2);
    [ apply list_elem_of_here | vm_compute; reflexivity | simpl; apply NoDup_singleton
    | vm_compute; reflexivity | .. ].
  vm_compute. intros Hin. apply list_elem_of_singleton in Hin. discriminate Hin.
Defined.

Lemma promote_without_email_witness :
  run (App.dispatch (H := toy) POST "/promote" admin_page) [alice] admin_session
  = (Val tt, mkSt [alice] admin_session [Redirect "/admin"]) ∧
  run (App.dispatch (H := toy) POST "/demote" admin_page) [alice] admin_session
  = (Val tt, mkSt [alice] admin_session [Redirect "/admin"]).
Proof.
  exact (promote_without_email (H := toy) admin_page root [alice] admin_session
           eq_refl eq_refl eq_refl).
Defined.
